(** * ReAgent training workflow and reward-network evaluator

    A shallow embedding of
      - [reagent/workflow/training.py]  (sample ranges, data resolution,
        training orchestration, validation and publishing stages), and
      - [reagent/evaluation/reward_net_evaluator.py] (metric accumulation
        and best-model snapshotting),
    together with the properties stated about them.

    Python [float] is IEEE-754 binary64; it is embedded as Rocq's primitive
    [float], whose operations are the same binary64 operations.  Python
    exceptions are embedded as the [Err] branch of [result]. *)

From Stdlib Require Import Floats ZArith List String Bool Lia.
Import ListNotations.

#[local] Open Scope string_scope.
#[local] Open Scope list_scope.
#[local] Set Warnings "-inexact-float".

(** ** Exceptions and results *)

(** One fragment of a formatted (f-string) message: literal text, or the
    rendering of an interpolated value. *)
Inductive fragment : Type :=
| Lit (s : string)
| FmtOptFloat (v : option float)
| FmtFloat (v : float)
| FmtRepr (s : string).

Definition message : Type := list fragment.

(** The Python exceptions that the embedded code raises itself, and
    [Raised] for whatever exception a collaborator call lets escape. *)
Inductive exn : Type :=
| AssertionError (msg : message)
| ValueError (msg : string)
| AttributeError (attr : string)
| Raised (tag : string).

Inductive result (A : Type) : Type :=
| Ok (a : A)
| Err (e : exn).

Arguments Ok {A} a.
Arguments Err {A} e.

Definition is_ok {A} (r : result A) : bool :=
  match r with Ok _ => true | Err _ => false end.

(** What a call into a collaborator does: it returns a value, or it raises
    an exception of its own, known here by a tag only. *)
Inductive outcome (A : Type) : Type :=
| Returns (a : A)
| Raises (tag : string).

Arguments Returns {A} a.
Arguments Raises {A} tag.

(** The exception of a collaborator escapes the caller unchanged. *)
Definition escaped {A} (o : outcome A) : result A :=
  match o with
  | Returns a => Ok a
  | Raises tag => Err (Raised tag)
  end.

(** ** Facts on binary64 comparison and addition *)

Module FloatFacts.

#[local] Open Scope float_scope.

Lemma SFcompare_Lt_Gt (x y : spec_float) :
  SFcompare x y = Some Lt -> SFcompare y x = Some Gt.
Proof.
  destruct x as [sx|sx| |sx mx ex], y as [sy|sy| |sy my ey]; simpl;
    try discriminate; try (destruct sx; discriminate);
    try (destruct sy; discriminate);
    try (destruct sx, sy; intros; congruence).
  change (Pos.compare_cont Eq mx my) with (Pos.compare mx my).
  change (Pos.compare_cont Eq my mx) with (Pos.compare my mx).
  rewrite (Z.compare_antisym ex ey), (Pos.compare_antisym mx my).
  destruct sx, sy; try congruence;
    destruct (ex ?= ey)%Z, (mx ?= my)%positive; simpl; congruence.
Qed.

(** A strict "greater than" excludes "less or equal"; NaN plays no part,
    since a comparison that holds has no NaN operand. *)
Lemma ltb_leb_false (x y : float) : (x <? y) = true -> (y <=? x) = false.
Proof.
  rewrite ltb_spec, leb_spec. unfold SFltb, SFleb.
  destruct (SFcompare (Prim2SF x) (Prim2SF y)) as [[ | | ]|] eqn:E;
    try discriminate.
  intros _. now rewrite (SFcompare_Lt_Gt _ _ E).
Qed.

(** "Less or equal" on the specification side. *)
Definition SFle (x y : spec_float) : Prop :=
  SFcompare x y = Some Lt \/ SFcompare x y = Some Eq.

Lemma SFleb_iff (x y : spec_float) : SFleb x y = true <-> SFle x y.
Proof.
  unfold SFleb, SFle.
  destruct (SFcompare x y) as [[ | | ]|]; intuition congruence.
Qed.

Ltac compare_cases :=
  repeat match goal with
         | |- context [(?a ?= ?b)%Z] => destruct (Z.compare_spec a b)
         | H : context [(?a ?= ?b)%Z] |- _ => destruct (Z.compare_spec a b)
         | |- context [(?a ?= ?b)%positive] =>
             destruct (Pos.compare_spec a b)
         | H : context [(?a ?= ?b)%positive] |- _ =>
             destruct (Pos.compare_spec a b)
         end.

Lemma SFle_trans (x y z : spec_float) : SFle x y -> SFle y z -> SFle x z.
Proof.
  unfold SFle.
  destruct x as [sx|sx| |sx mx ex], y as [sy|sy| |sy my ey],
           z as [sz|sz| |sz mz ez]; simpl;
    try (intuition congruence);
    try (destruct sx; intuition congruence);
    try (destruct sy; intuition congruence);
    try (destruct sz; intuition congruence);
    try (destruct sx, sy; intuition congruence);
    try (destruct sy, sz; intuition congruence);
    try (destruct sx, sz; intuition congruence);
    try (destruct sx, sy, sz; intuition congruence).
  change (Pos.compare_cont Eq mx my) with (Pos.compare mx my).
  change (Pos.compare_cont Eq my mz) with (Pos.compare my mz).
  change (Pos.compare_cont Eq mx mz) with (Pos.compare mx mz).
  destruct sx, sy, sz; try (intuition congruence);
    compare_cases; subst; simpl; try lia; intuition congruence.
Qed.

Lemma SFcompare_refl (x : spec_float) :
  x <> S754_nan -> SFcompare x x = Some Eq.
Proof.
  destruct x as [s|s| |s m e]; simpl; try congruence.
  - now destruct s.
  - intros _. rewrite Z.compare_refl.
    change (Pos.compare_cont Eq m m) with (Pos.compare m m).
    rewrite Pos.compare_refl. now destruct s.
Qed.

Lemma leb_trans (x y z : float) :
  (x <=? y) = true -> (y <=? z) = true -> (x <=? z) = true.
Proof.
  rewrite !leb_spec, !SFleb_iff. apply SFle_trans.
Qed.

Lemma ltb_leb (x y : float) : (x <? y) = true -> (x <=? y) = true.
Proof.
  rewrite ltb_spec, leb_spec. unfold SFltb, SFleb.
  now destruct (SFcompare (Prim2SF x) (Prim2SF y)) as [[ | | ]|].
Qed.

(** [is_nan x] is [negb (x =? x)]. *)
Lemma not_nan_spec (x : float) : is_nan x = false <-> Prim2SF x <> S754_nan.
Proof.
  unfold is_nan. rewrite FloatAxioms.eqb_spec. unfold SFeqb. split.
  - intros H E. rewrite E in H. discriminate.
  - intros H. now rewrite (SFcompare_refl _ H).
Qed.

Lemma leb_refl (x : float) : is_nan x = false -> (x <=? x) = true.
Proof.
  intros H. apply not_nan_spec in H. rewrite leb_spec. unfold SFleb.
  now rewrite (SFcompare_refl _ H).
Qed.

(** A comparison that holds has no NaN operand. *)
Lemma ltb_not_nan (x y : float) : (x <? y) = true -> is_nan x = false.
Proof.
  rewrite ltb_spec. unfold SFltb. intros H. apply not_nan_spec. intros E.
  rewrite E in H. discriminate.
Qed.

Lemma SFadd_comm (x y : spec_float) : SF64add x y = SF64add y x.
Proof.
  unfold SF64add, SFadd.
  destruct x as [sx|sx| |sx mx ex], y as [sy|sy| |sy my ey]; try reflexivity.
  - destruct sx, sy; reflexivity.
  - destruct sx, sy; reflexivity.
  - rewrite (Z.min_comm ey ex). f_equal. apply Z.add_comm.
Qed.

Lemma add_comm (x y : float) : x + y = y + x.
Proof.
  apply Prim2SF_inj. rewrite !add_spec. apply SFadd_comm.
Qed.

(** *** NaN, and the strict order *)

Lemma SFcompare_antisym (x y : spec_float) (c : comparison) :
  SFcompare x y = Some c -> SFcompare y x = Some (CompOpp c).
Proof.
  destruct x as [sx|sx| |sx mx ex], y as [sy|sy| |sy my ey]; simpl;
    try discriminate;
    try (destruct sx; intros H; inversion H; reflexivity);
    try (destruct sy; intros H; inversion H; reflexivity);
    try (destruct sx, sy; intros H; inversion H; reflexivity);
    try (intros H; inversion H; reflexivity).
  change (Pos.compare_cont Eq mx my) with (Pos.compare mx my).
  change (Pos.compare_cont Eq my mx) with (Pos.compare my mx).
  rewrite (Z.compare_antisym ex ey), (Pos.compare_antisym mx my).
  intros H; inversion H; subst c; clear H.
  destruct sx, sy; try reflexivity;
    destruct (ex ?= ey)%Z, (mx ?= my)%positive; reflexivity.
Qed.

Lemma SFcompare_total (x y : spec_float) :
  x <> S754_nan -> y <> S754_nan -> exists c, SFcompare x y = Some c.
Proof.
  destruct x, y; simpl; try congruence; eauto.
Qed.

Lemma nan_spec (x : float) : is_nan x = true <-> Prim2SF x = S754_nan.
Proof.
  split.
  - intros H. destruct (Prim2SF x) eqn:E; try reflexivity;
      assert (is_nan x = false) as N
        by (apply not_nan_spec; rewrite E; discriminate);
      congruence.
  - intros H. destruct (is_nan x) eqn:E; [reflexivity|].
    apply not_nan_spec in E. contradiction.
Qed.

(** No comparison with NaN holds. *)
Lemma nan_ltb_l (x y : float) : is_nan x = true -> (x <? y) = false.
Proof.
  intros H. apply nan_spec in H. rewrite ltb_spec. unfold SFltb.
  now rewrite H.
Qed.

Lemma nan_leb_l (x y : float) : is_nan x = true -> (x <=? y) = false.
Proof.
  intros H. apply nan_spec in H. rewrite leb_spec. unfold SFleb.
  now rewrite H.
Qed.

(** A sum with a NaN operand is NaN. *)
Lemma add_nan_l (x y : float) : is_nan x = true -> is_nan (x + y) = true.
Proof.
  intros H. apply nan_spec in H. apply nan_spec.
  rewrite add_spec, H. reflexivity.
Qed.

Lemma add_nan_r (x y : float) : is_nan y = true -> is_nan (x + y) = true.
Proof.
  intros H. rewrite add_comm. now apply add_nan_l.
Qed.

Lemma ltb_irrefl (x : float) : (x <? x) = false.
Proof.
  destruct (is_nan x) eqn:E; [now apply nan_ltb_l|].
  apply not_nan_spec in E. rewrite ltb_spec. unfold SFltb.
  now rewrite (SFcompare_refl _ E).
Qed.

Lemma ltb_neq (x y : float) : (x <? y) = true -> x <> y.
Proof.
  intros H E. subst y. rewrite ltb_irrefl in H. discriminate.
Qed.

Lemma leb_not_nan_r (x y : float) : (x <=? y) = true -> is_nan y = false.
Proof.
  rewrite leb_spec. unfold SFleb. intros H. apply not_nan_spec. intros E.
  rewrite E in H. now destruct (Prim2SF x).
Qed.

(** Below something that is below or equal to [z] is below [z]. *)
Lemma ltb_leb_trans (x y z : float) :
  (x <? y) = true -> (y <=? z) = true -> (x <? z) = true.
Proof.
  intros Hxy Hyz.
  pose proof (leb_trans _ _ _ (ltb_leb _ _ Hxy) Hyz) as Hxz.
  destruct (x <? z) eqn:E; [reflexivity|].
  assert ((z <=? x) = true) as Hzx.
  { rewrite leb_spec in Hxz |- *. rewrite ltb_spec in E.
    unfold SFleb, SFltb in *.
    destruct (SFcompare (Prim2SF x) (Prim2SF z)) as [[ | | ]|] eqn:C;
      try discriminate.
    now rewrite (SFcompare_antisym _ _ _ C). }
  pose proof (leb_trans _ _ _ Hyz Hzx) as Hyx.
  now rewrite (ltb_leb_false _ _ Hxy) in Hyx.
Qed.

(** On numbers, "not below" is "above or equal". *)
Lemma not_ltb_leb (x y : float) :
  is_nan x = false -> is_nan y = false ->
  (x <? y) = false -> (y <=? x) = true.
Proof.
  intros Hx Hy. apply not_nan_spec in Hx. apply not_nan_spec in Hy.
  destruct (SFcompare_total _ _ Hx Hy) as [c C].
  rewrite ltb_spec, leb_spec. unfold SFltb, SFleb.
  rewrite C, (SFcompare_antisym _ _ _ C). now destruct c.
Qed.

End FloatFacts.

(** ** Sample ranges ([training.py], lines 77-115) *)

Module SampleRange.

#[local] Open Scope float_scope.

(** Modelled from the spec: [TableSpec] is declared in
    [reagent.workflow.types].  It identifies a dataset source and carries
    the two optional sampling percentages read by [get_sample_range]. *)
Record TableSpec : Type := mkTableSpec {
  table_name : string;
  table_sample : option float;
  eval_table_sample : option float
}.

Definition SampleRange : Type := (float * float)%type.

Record TrainEvalSampleRanges : Type := mkRanges {
  train_sample_range : SampleRange;
  eval_sample_range : SampleRange
}.

(** The f-string bound to [error_msg] (lines 100-107). *)
Definition error_msg (table_sample eval_table_sample : option float) : message :=
  [ Lit "calc_cpe_in_training is set to True. ";
    Lit "Please specify table_sample(current=";
    FmtOptFloat table_sample;
    Lit ") and ";
    Lit "eval_table_sample(current=";
    FmtOptFloat eval_table_sample;
    Lit ") such that ";
    Lit "eval_table_sample + table_sample <= 100. ";
    Lit "In order to reliably calculate CPE, eval_table_sample ";
    Lit "should not be too small." ].

Definition get_sample_range
    (input_table_spec : TableSpec) (calc_cpe_in_training : bool)
    : result TrainEvalSampleRanges :=
  let table_sample := table_sample input_table_spec in
  let eval_table_sample := eval_table_sample input_table_spec in
  if negb calc_cpe_in_training then
    let train_sample_range :=
      match table_sample with
      | None => (0.0, 100.0)
      | Some ts => (0.0, ts)
      end in
    Ok (mkRanges train_sample_range (0.0, 0.0))
  else
    let error_msg := error_msg table_sample eval_table_sample in
    match table_sample with
    | None => Err (AssertionError error_msg)
    | Some ts =>
      match eval_table_sample with
      | None => Err (AssertionError error_msg)
      | Some ets =>
        if (ets + ts) <=? (100.0 + 1e-3) then
          Ok (mkRanges (0.0, ts) (100.0 - ets, 100.0))
        else Err (AssertionError error_msg)
      end
    end.

(** Two percentage windows overlap when they share more than an end point. *)
Definition ranges_overlap (r1 r2 : SampleRange) : bool :=
  (fst r1 <? snd r2) && (fst r2 <? snd r1).

(** The literal [1e-3] denotes the binary64 number nearest to 0.001, as it
    does in Python. *)
Example tolerance_literal : 1e-3 = 0x1.0624dd2f1a9fcp-10.
Proof. reflexivity. Qed.

Example scenario_80_15 :
  get_sample_range (mkTableSpec "t" (Some 80) (Some 15)) true
  = Ok (mkRanges (0, 80) (85, 100)).
Proof. reflexivity. Qed.

Example scenario_unset_no_cpe :
  get_sample_range (mkTableSpec "t" None None) false
  = Ok (mkRanges (0, 100) (0, 0)).
Proof. reflexivity. Qed.

(** *** Properties of [get_sample_range] *)

Lemma overlap_of_cross_eval_ranges (ts ets : float) :
  ranges_overlap (0.0, ts) (100.0 - ets, 100.0) = (100.0 - ets <? ts).
Proof.
  unfold ranges_overlap; simpl.
  now change (0.0 <? 100.0) with true.
Qed.

(** C2, as the code has it.  With cross-partition evaluation requested and
    [table_sample + eval_table_sample <= 100 + 1e-3], [get_sample_range]
    returns the train range [(0, table_sample)] and the eval range
    [(100 - eval_table_sample, 100)]; these two ranges overlap exactly when
    [100 - eval_table_sample < table_sample], a case the tolerance admits. *)
Theorem get_sample_range_cross_eval (spec : TableSpec) (ts ets : float) :
  table_sample spec = Some ts ->
  eval_table_sample spec = Some ets ->
  (ts + ets <=? 100.0 + 1e-3) = true ->
  get_sample_range spec true = Ok (mkRanges (0.0, ts) (100.0 - ets, 100.0))
  /\ ranges_overlap (0.0, ts) (100.0 - ets, 100.0) = (100.0 - ets <? ts).
Proof.
  intros Hts Hets Hsum. split; [|apply overlap_of_cross_eval_ranges].
  unfold get_sample_range; simpl in Hsum |- *. rewrite Hts, Hets.
  now rewrite (FloatFacts.add_comm ets ts), Hsum.
Qed.

Lemma get_sample_range_cross_eval_witness :
  (80.0 + 15.0 <=? 100.0 + 1e-3) = true
  /\ get_sample_range (mkTableSpec "t" (Some 80.0) (Some 15.0)) true
     = Ok (mkRanges (0.0, 80.0) (100.0 - 15.0, 100.0))
  /\ ranges_overlap (0.0, 80.0) (100.0 - 15.0, 100.0) = (100.0 - 15.0 <? 80.0).
Proof.
  split; [reflexivity|].
  apply (get_sample_range_cross_eval
           (mkTableSpec "t" (Some 80.0) (Some 15.0)) 80.0 15.0);
    reflexivity.
Defined.

(** C2 as stated fails: [table_sample = 50.0009765625] and
    [eval_table_sample = 50] sum to no more than [100 + 1e-3], are accepted,
    and yield the overlapping ranges [(0, 50.0009765625)] and [(50, 100)]. *)
Lemma get_sample_range_overlap_counterexample :
  (50.0009765625 + 50.0 <=? 100.0 + 1e-3) = true
  /\ get_sample_range (mkTableSpec "t" (Some 50.0009765625) (Some 50.0)) true
     = Ok (mkRanges (0.0, 50.0009765625) (50.0, 100.0))
  /\ ranges_overlap (0.0, 50.0009765625) (50.0, 100.0) = true.
Proof. repeat split; reflexivity. Qed.

(** C6.  With cross-partition evaluation requested, a missing
    [table_sample], a missing [eval_table_sample], or a sum above
    [100 + 1e-3] makes [get_sample_range] fail: no ranges are returned, and
    the assertion message names both current values and the required
    relationship. *)
Theorem get_sample_range_cross_eval_rejected (spec : TableSpec) :
  table_sample spec = None
  \/ eval_table_sample spec = None
  \/ (exists ts ets,
        table_sample spec = Some ts /\ eval_table_sample spec = Some ets
        /\ (100.0 + 1e-3 <? ts + ets) = true) ->
  let msg := error_msg (table_sample spec) (eval_table_sample spec) in
  get_sample_range spec true = Err (AssertionError msg)
  /\ In (FmtOptFloat (table_sample spec)) msg
  /\ In (FmtOptFloat (eval_table_sample spec)) msg
  /\ In (Lit "eval_table_sample + table_sample <= 100. ") msg.
Proof.
  intros H msg. split.
  - unfold get_sample_range; simpl. fold msg.
    destruct H as [H | [H | (ts & ets & Hts & Hets & Hgt)]].
    + now rewrite H.
    + rewrite H. now destruct (table_sample spec).
    + rewrite Hts, Hets. simpl in Hgt.
      now rewrite (FloatFacts.add_comm ets ts), (FloatFacts.ltb_leb_false _ _ Hgt).
  - unfold msg, error_msg; simpl; intuition.
Qed.

Lemma get_sample_range_cross_eval_rejected_witness :
  (100.0 + 1e-3 <? 80.0 + 30.0) = true
  /\ get_sample_range (mkTableSpec "t" (Some 80.0) (Some 30.0)) true
     = Err (AssertionError (error_msg (Some 80.0) (Some 30.0))).
Proof.
  split; [reflexivity|].
  apply (get_sample_range_cross_eval_rejected
           (mkTableSpec "t" (Some 80.0) (Some 30.0))).
  right; right. exists 80.0, 30.0. repeat split; reflexivity.
Defined.

(** *** Further properties of [get_sample_range] *)

Lemma get_sample_range_raises_assertion spec calc_cpe_in_training e :
  get_sample_range spec calc_cpe_in_training = Err e ->
  exists msg, e = AssertionError msg.
Proof.
  unfold get_sample_range.
  destruct calc_cpe_in_training; simpl; [|discriminate].
  destruct (table_sample spec), (eval_table_sample spec);
    try destruct (_ <=? _); intros H; inversion H; eauto.
Qed.

(** Without cross-partition evaluation (lines 88-98) [get_sample_range]
    cannot fail: it returns the train range [(0, table_sample)], the whole
    table [(0, 100)] when [table_sample] is unset, and the empty eval range
    [(0, 0)], which shares nothing with the train range. *)
Theorem get_sample_range_train_only (spec : TableSpec) :
  let high :=
    match table_sample spec with Some ts => ts | None => 100.0 end in
  get_sample_range spec false = Ok (mkRanges (0.0, high) (0.0, 0.0))
  /\ ranges_overlap (0.0, high) (0.0, 0.0) = false.
Proof.
  unfold get_sample_range, ranges_overlap; simpl.
  split; [now destruct (table_sample spec)|].
  now change (0.0 <? 0.0) with false.
Qed.

(** X1.  [get_sample_range] fails only when cross-partition evaluation is
    requested, only with the [AssertionError] that carries [error_msg], and
    exactly when a percentage is unset or the sum, as computed, is not at most
    [100 + 1e-3]. *)
Theorem get_sample_range_failure
    (spec : TableSpec) (calc_cpe_in_training : bool) (e : exn) :
  get_sample_range spec calc_cpe_in_training = Err e
  <->
  calc_cpe_in_training = true
  /\ e = AssertionError
           (error_msg (table_sample spec) (eval_table_sample spec))
  /\ (table_sample spec = None
      \/ eval_table_sample spec = None
      \/ exists ts ets,
           table_sample spec = Some ts /\ eval_table_sample spec = Some ets
           /\ (ets + ts <=? 100.0 + 1e-3) = false).
Proof.
  unfold get_sample_range.
  destruct calc_cpe_in_training; simpl.
  - destruct (table_sample spec) as [ts|], (eval_table_sample spec) as [ets|];
      simpl.
    + destruct (ets + ts <=? 100.001) eqn:E; split.
      * discriminate.
      * intros (_ & _ & [H | [H | (ts0 & ets0 & H1 & H2 & H3)]]);
          try discriminate.
        inversion H1; inversion H2; subst. simpl in H3. congruence.
      * intros H; inversion H. repeat split. right; right.
        exists ts, ets. now repeat split.
      * now intros (_ & -> & _).
    + split; [intros H; inversion H; auto | now intros (_ & -> & _)].
    + split; [intros H; inversion H; auto | now intros (_ & -> & _)].
    + split; [intros H; inversion H; auto | now intros (_ & -> & _)].
  - split; [discriminate | intros (H & _); discriminate].
Qed.

(** X2.  With cross-partition evaluation requested, a NaN percentage is
    rejected: the sum is NaN, and no comparison with NaN holds. *)
Theorem get_sample_range_rejects_nan (spec : TableSpec) (ts ets : float) :
  table_sample spec = Some ts ->
  eval_table_sample spec = Some ets ->
  is_nan ts = true \/ is_nan ets = true ->
  get_sample_range spec true
  = Err (AssertionError (error_msg (Some ts) (Some ets))).
Proof.
  intros Hts Hets Hnan.
  assert (is_nan (ets + ts) = true) as Hsum
    by (destruct Hnan; auto using FloatFacts.add_nan_l, FloatFacts.add_nan_r).
  unfold get_sample_range; simpl. rewrite Hts, Hets.
  now rewrite (FloatFacts.nan_leb_l _ 100.001 Hsum).
Qed.

Lemma get_sample_range_rejects_nan_witness :
  is_nan nan = true
  /\ get_sample_range (mkTableSpec "t" (Some nan) (Some 15.0)) true
     = Err (AssertionError (error_msg (Some nan) (Some 15.0))).
Proof.
  split; [reflexivity|].
  apply (get_sample_range_rejects_nan
           (mkTableSpec "t" (Some nan) (Some 15.0)) nan 15.0);
    [reflexivity | reflexivity | left; reflexivity].
Defined.

End SampleRange.

(** ** Training orchestration ([training.py], lines 118-254) *)

Module Workflow.

Import SampleRange.

(** *** Data handed between the stages *)

Definition bytes : Type := list Byte.byte.

(** A Python [dict] with string keys, in insertion order. *)
Definition Dict (V : Type) : Type := list (string * V).

Definition SetupData : Type := Dict bytes.

(** A value of [saved_setup_data]: raw [bytes], or a blob whose [data]
    attribute holds the bytes (lines 149-154). *)
Inductive SavedValue : Type :=
| RawBytes (b : bytes)
| Blob (data : bytes).

Definition ModuleNameToEntityId : Type := Dict Z.

(** Modelled from the spec: the option, dataset, report and result types
    are declared in other modules ([reagent.workflow.types],
    [reagent.parameters], the validator and publisher unions).  The
    orchestrator only passes their values on, so they are kept abstract;
    [new_X] stands for the constructor call [X()]. *)
Record ExternalTypes : Type := {
  RewardOptions : Type;
  ReaderOptions : Type;
  ResourceOptions : Type;
  NormalizationData : Type;
  Dataset : Type;
  RecurringPeriod : Type;
  TrainingReport : Type;
  ValidationResult : Type;
  PublishingResult : Type;
  new_RewardOptions : RewardOptions;
  new_ReaderOptions : ReaderOptions;
  new_ResourceOptions : ResourceOptions
}.

(** A tagged union [X__Union]; [value] is its active member. *)
Record Union (A : Type) : Type := mkUnion { value : A }.
Arguments mkUnion {A} value.
Arguments value {A} u.

Section Orchestrator.

Context (T : ExternalTypes).

Definition NormalizationDataMap : Type := Dict (NormalizationData T).

(** Modelled from the spec: [RLTrainingOutput] (declared in
    [reagent.workflow.types]) holds the base training results and the two
    optional stage results, each initially unset. *)
Record RLTrainingOutput : Type := mkOutput {
  validation_result : option (ValidationResult T);
  publishing_result : option (PublishingResult T);
  training_report : option (TrainingReport T);
  local_output_path : option string
}.

(** The keyword arguments of [manager.train_workflow] (lines 192-205). *)
Record TrainWorkflowArgs : Type := mkTrainArgs {
  tw_train_dataset : option (Dataset T);
  tw_eval_dataset : option (Dataset T);
  tw_num_epochs : Z;
  tw_use_gpu : bool;
  tw_setup_data : option SetupData;
  tw_normalization_data_map : option NormalizationDataMap;
  tw_named_model_ids : ModuleNameToEntityId;
  tw_child_workflow_id : Z;
  tw_reward_options : RewardOptions T;
  tw_reader_options : ReaderOptions T;
  tw_resource_options : ResourceOptions T;
  tw_warmstart_path : option string
}.

(** *** Collaborators

    Every collaborator call either returns or raises. *)

Record DataModule : Type := {
  prepare_data : outcome (option SetupData)
}.

Record ModelManager : Type := {
  serving_module_names : outcome (list string);
  get_data_module :
    TableSpec -> RewardOptions T -> ReaderOptions T ->
    option SetupData -> outcome (option DataModule);
  should_generate_eval_dataset : bool;
  query_data :
    TableSpec -> SampleRange -> RewardOptions T -> outcome (Dataset T);
  train_workflow : TrainWorkflowArgs -> outcome RLTrainingOutput
}.

Record ModelValidator : Type := {
  validate : RLTrainingOutput -> outcome (ValidationResult T)
}.

Record ModelPublisher : Type := {
  publish :
    ModelManager -> RLTrainingOutput -> ModuleNameToEntityId -> Z ->
    option (RecurringPeriod T) -> outcome (PublishingResult T)
}.

Definition ModelManager__Union : Type := Union ModelManager.
Definition ModelValidator__Union : Type := Union ModelValidator.
Definition ModelPublisher__Union : Type := Union ModelPublisher.

(** *** Effects: a store of output records and a trace of calls *)

(** A reference to an [RLTrainingOutput] object. *)
Definition ref : Type := nat.

Definition store : Type := list RLTrainingOutput.

Inductive event : Type :=
| EGetWorkflowId
| EServingModuleNames
| EGetNewNamedEntityIds (names : list string)
| ELog (msg : string)
| EGetDataModule (saved_setup_data : option SetupData)
| EPrepareData
| EQueryData (sample_range : SampleRange)
| ETrainWorkflow (args : TrainWorkflowArgs)
| EValidate (training_output : ref)
| EPublish (training_output : ref).

(** A computation runs on a store and yields a result or an exception,
    the store it leaves, and the calls it made, oldest first. *)
Definition M (A : Type) : Type := store -> result A * store * list event.

Definition ret {A} (a : A) : M A := fun s => (Ok a, s, []).

Definition raise {A} (e : exn) : M A := fun s => (Err e, s, []).

Definition bind {A B} (m : M A) (f : A -> M B) : M B :=
  fun s =>
    match m s with
    | (Ok a, s1, t1) => let '(r, s2, t2) := f a s1 in (r, s2, t1 ++ t2)
    | (Err e, s1, t1) => (Err e, s1, t1)
    end.

Definition lift {A} (r : result A) : M A :=
  match r with Ok a => ret a | Err e => raise e end.

Definition emit (ev : event) : M unit := fun s => (Ok tt, s, [ev]).

(** A collaborator call: recorded, then returning or raising. *)
Definition call {A} (ev : event) (o : outcome A) : M A :=
  bind (emit ev) (fun _ => lift (escaped o)).

(** A record object enters the store under the next reference: one made by
    [dataclasses.replace], or the one a collaborator hands back.  The store
    tells records apart by the order in which the workflow meets them; it
    does not say whether a collaborator made its result anew. *)
Definition alloc (t : RLTrainingOutput) : M ref :=
  fun s => (Ok (List.length s), s ++ [t], []).

Definition deref (r : ref) : M RLTrainingOutput :=
  fun s =>
    match nth_error s r with
    | Some t => (Ok t, s, [])
    | None => (Err (Raised "dangling reference"), s, [])
    end.

#[local] Notation "x <- m ;; k" := (bind m (fun x => k))
  (at level 61, m at next level, right associativity).
#[local] Notation "m ;; k" := (bind m (fun _ => k))
  (at level 61, right associativity).

(** *** The environment: [reagent.workflow.env] and attribute lookup *)

Variable get_workflow_id : outcome Z.
Variable get_new_named_entity_ids :
  list string -> outcome ModuleNameToEntityId.

(** [format_attr t a] renders attribute [a] of the object [t] for an
    f-string, for attributes other than the four fields above; [None] when
    the object has no such attribute. *)
Variable format_attr : RLTrainingOutput -> string -> option string.

(** *** Stages: [run_validator] (lines 223-231) and [run_publisher]
    (lines 234-254) *)

(** [dataclasses.replace(training_output, validation_result=...)]. *)
Definition replace_validation_result
    (t : RLTrainingOutput) (v : ValidationResult T) : RLTrainingOutput :=
  mkOutput (Some v) (publishing_result t) (training_report t)
           (local_output_path t).

(** [dataclasses.replace(training_output, publishing_result=...)]. *)
Definition replace_publishing_result
    (t : RLTrainingOutput) (p : PublishingResult T) : RLTrainingOutput :=
  mkOutput (validation_result t) (Some p) (training_report t)
           (local_output_path t).

(** A failing [assert c, f"<text>{t.<attr>}"]: the message is evaluated,
    which itself raises when the record has no attribute [attr]. *)
Definition assertion_failure {A}
    (text : string) (t : RLTrainingOutput) (attr : string) : M A :=
  match format_attr t attr with
  | Some v => raise (AssertionError [Lit text; FmtRepr v])
  | None => raise (AttributeError attr)
  end.

Definition run_validator
    (validator : ModelValidator__Union) (training_output : ref) : M ref :=
  t <- deref training_output ;;
  match validation_result t with
  | Some _ =>
      assertion_failure "validation_output was set to f" t "validation_output"
  | None =>
      let model_validator := value validator in
      validation_result <-
        call (EValidate training_output) (validate model_validator t) ;;
      alloc (replace_validation_result t validation_result)
  end.

Definition run_publisher
    (publisher : ModelPublisher__Union)
    (model_chooser : ModelManager__Union)
    (training_output : ref)
    (recurring_workflow_ids : ModuleNameToEntityId)
    (child_workflow_id : Z)
    (recurring_period : option (RecurringPeriod T)) : M ref :=
  t <- deref training_output ;;
  match publishing_result t with
  | Some _ =>
      assertion_failure "publishing_output was set to f" t "publishing_output"
  | None =>
      let model_publisher := value publisher in
      let model_manager := value model_chooser in
      publishing_result <-
        call (EPublish training_output)
             (publish model_publisher model_manager t recurring_workflow_ids
                      child_workflow_id recurring_period) ;;
      alloc (replace_publishing_result t publishing_result)
  end.

(** *** [query_and_train] (lines 118-220) *)

(** [o or d]: the default [d] when [o] is [None]. *)
Definition or_default {A} (o : option A) (d : A) : A :=
  match o with Some a => a | None => d end.

Definition is_not_None {A} (o : option A) : bool :=
  match o with Some _ => true | None => false end.

(** Python's [int(b)]. *)
Definition int (b : bool) : Z := if b then 1%Z else 0%Z.

Definition _maybe_get_bytes (v : SavedValue) : bytes :=
  match v with
  | RawBytes b => b
  | Blob data => data
  end.

(** The local variables that are live after line 168. *)
Record Resolved : Type := mkResolved {
  r_child_workflow_id : Z;
  r_named_model_ids : ModuleNameToEntityId;
  r_reward_options : RewardOptions T;
  r_reader_options : ReaderOptions T;
  r_resource_options : ResourceOptions T;
  r_setup_data : option SetupData;
  r_normalization_data_map : option NormalizationDataMap
}.

(** Lines 136-168: identifiers, defaults, and data resolution. *)
Definition query_and_train_resolve
    (input_table_spec : TableSpec)
    (model : ModelManager__Union)
    (setup_data : option SetupData)
    (saved_setup_data : option (Dict SavedValue))
    (normalization_data_map : option NormalizationDataMap)
    (reward_options : option (RewardOptions T))
    (reader_options : option (ReaderOptions T))
    (resource_options : option (ResourceOptions T))
    (named_model_ids : option ModuleNameToEntityId) : M Resolved :=
  child_workflow_id <- call EGetWorkflowId get_workflow_id ;;
  named_model_ids <-
    match named_model_ids with
    | Some ids => ret ids
    | None =>
        names <- call EServingModuleNames (serving_module_names (value model)) ;;
        call (EGetNewNamedEntityIds names) (get_new_named_entity_ids names)
    end ;;
  emit (ELog "Starting query") ;;
  let reward_options := or_default reward_options (new_RewardOptions T) in
  let reader_options := or_default reader_options (new_ReaderOptions T) in
  let resource_options := or_default resource_options (new_ResourceOptions T) in
  let manager := value model in
  let saved_setup_data :=
    match saved_setup_data with
    | Some d => Some (map (fun kv => (fst kv, _maybe_get_bytes (snd kv))) d)
    | None => None
    end in
  data <-
    match setup_data with
    | Some _ => ret (setup_data, normalization_data_map)
    | None =>
        data_module <-
          call (EGetDataModule saved_setup_data)
               (get_data_module manager input_table_spec reward_options
                                reader_options saved_setup_data) ;;
        match data_module with
        | Some data_module =>
            setup_data <- call EPrepareData (prepare_data data_module) ;;
            (* Throw away existing normalization data map *)
            ret (setup_data, None)
        | None => ret (None, normalization_data_map)
        end
    end ;;
  ret (mkResolved child_workflow_id named_model_ids reward_options
                  reader_options resource_options (fst data) (snd data)).

(** Lines 170-220: the exclusivity check, the queries, training, and the
    optional validation and publishing stages. *)
Definition query_and_train_run
    (input_table_spec : TableSpec)
    (model : ModelManager__Union)
    (num_epochs : Z)
    (use_gpu : bool)
    (warmstart_path : option string)
    (validator : option ModelValidator__Union)
    (publisher : option ModelPublisher__Union)
    (recurring_period : option (RecurringPeriod T))
    (x : Resolved) : M ref :=
  let manager := value model in
  let setup_data := r_setup_data x in
  let normalization_data_map := r_normalization_data_map x in
  let reward_options := r_reward_options x in
  (if negb (int (is_not_None setup_data)
            + int (is_not_None normalization_data_map) =? 1)%Z
   then raise (ValueError
                 "setup_data and normalization_data_map are mutually exclusive")
   else ret tt) ;;
  datasets <-
    match normalization_data_map with
    | Some _ =>
        let calc_cpe_in_training := should_generate_eval_dataset manager in
        sample_range_output <-
          lift (get_sample_range input_table_spec calc_cpe_in_training) ;;
        train_dataset <-
          call (EQueryData (train_sample_range sample_range_output))
               (query_data manager input_table_spec
                           (train_sample_range sample_range_output)
                           reward_options) ;;
        if calc_cpe_in_training then
          eval_dataset <-
            call (EQueryData (eval_sample_range sample_range_output))
                 (query_data manager input_table_spec
                             (eval_sample_range sample_range_output)
                             reward_options) ;;
          ret (Some train_dataset, Some eval_dataset)
        else ret (Some train_dataset, None)
    | None => ret (None, None)
    end ;;
  emit (ELog "Starting training") ;;
  let args :=
    mkTrainArgs (fst datasets) (snd datasets) num_epochs use_gpu setup_data
                normalization_data_map (r_named_model_ids x)
                (r_child_workflow_id x) reward_options (r_reader_options x)
                (r_resource_options x) warmstart_path in
  results <- call (ETrainWorkflow args) (train_workflow manager args) ;;
  results <- alloc results ;;
  results <-
    match validator with
    | Some validator => run_validator validator results
    | None => ret results
    end ;;
  results <-
    match publisher with
    | Some publisher =>
        run_publisher publisher model results (r_named_model_ids x)
                      (r_child_workflow_id x) recurring_period
    | None => ret results
    end ;;
  ret results.

Definition query_and_train
    (input_table_spec : TableSpec)
    (model : ModelManager__Union)
    (num_epochs : Z)
    (use_gpu : bool)
    (setup_data : option SetupData)
    (saved_setup_data : option (Dict SavedValue))
    (normalization_data_map : option NormalizationDataMap)
    (reward_options : option (RewardOptions T))
    (reader_options : option (ReaderOptions T))
    (resource_options : option (ResourceOptions T))
    (warmstart_path : option string)
    (validator : option ModelValidator__Union)
    (publisher : option ModelPublisher__Union)
    (named_model_ids : option ModuleNameToEntityId)
    (recurring_period : option (RecurringPeriod T)) : M ref :=
  x <- query_and_train_resolve input_table_spec model setup_data
         saved_setup_data normalization_data_map reward_options
         reader_options resource_options named_model_ids ;;
  query_and_train_run input_table_spec model num_epochs use_gpu
    warmstart_path validator publisher recurring_period x.

(** *** Properties of the stages *)

(** Every record of the store [s] is still there, unchanged, in [s']. *)
Definition preserved (s s' : store) : Prop :=
  forall r t, nth_error s r = Some t -> nth_error s' r = Some t.

(** The exceptions a failing [assert c, f"<text>{t.<attr>}"] can raise. *)
Definition raised_by_assert (text attr : string) (e : exn) : Prop :=
  e = AttributeError attr
  \/ exists v, e = AssertionError [Lit text; FmtRepr v].

Lemma assertion_failure_spec {A} text t attr (s : store) :
  exists e, @assertion_failure A text t attr s = (Err e, s, [])
            /\ raised_by_assert text attr e.
Proof.
  unfold assertion_failure, raised_by_assert.
  destruct (format_attr t attr) as [v|]; eexists; split;
    try reflexivity; eauto.
Qed.

Lemma preserved_alloc (s : store) (t : RLTrainingOutput) :
  preserved s (s ++ [t])
  /\ nth_error (s ++ [t]) (List.length s) = Some t.
Proof.
  split.
  - intros r t0 H. rewrite nth_error_app1; [exact H|].
    apply nth_error_Some. congruence.
  - rewrite nth_error_app2, Nat.sub_diag by lia. reflexivity.
Qed.

Lemma allocated_not_fresh (s : store) (r : ref) (t : RLTrainingOutput) :
  nth_error s r = Some t -> List.length s <> r.
Proof.
  intros H E. subst r.
  assert (nth_error s (List.length s) <> None) as N by congruence.
  apply nth_error_Some in N. lia.
Qed.

(** C7.  The assertion of a stage does not raise the error it is written to
    raise.  On a record whose [validation_result] (or [publishing_result])
    is set the condition fails and the message is formatted, which reads
    the attribute [validation_output] (or [publishing_output]): on a record
    without that attribute the stage ends in [AttributeError], not in
    [AssertionError].  The collaborator is not called, no record is created
    and the store is left as it was. *)
Theorem stage_assertion_raises_attribute_error
    (validator : ModelValidator__Union)
    (publisher : ModelPublisher__Union) (model_chooser : ModelManager__Union)
    (ids : ModuleNameToEntityId) (wid : Z)
    (period : option (RecurringPeriod T))
    (s : store) (r : ref) (t : RLTrainingOutput) :
  nth_error s r = Some t ->
  (is_not_None (validation_result t) = true ->
   format_attr t "validation_output" = None ->
   run_validator validator r s
   = (Err (AttributeError "validation_output"), s, []))
  /\ (is_not_None (publishing_result t) = true ->
      format_attr t "publishing_output" = None ->
      run_publisher publisher model_chooser r ids wid period s
      = (Err (AttributeError "publishing_output"), s, [])).
Proof.
  intros Hr. split; intros Hset Hattr.
  - unfold run_validator, bind, deref. rewrite Hr.
    destruct (validation_result t); [|discriminate].
    unfold assertion_failure. now rewrite Hattr.
  - unfold run_publisher, bind, deref. rewrite Hr.
    destruct (publishing_result t); [|discriminate].
    unfold assertion_failure. now rewrite Hattr.
Qed.

(** C8.  On a record whose stage field is unset, a stage whose collaborator
    returns creates a new record: its own field holds the collaborator's
    result, every other field is that of the input record, the returned
    reference differs from the input one, and every record of the store,
    the input record among them, is unchanged. *)
Theorem stage_functional_update
    (validator : ModelValidator__Union)
    (publisher : ModelPublisher__Union) (model_chooser : ModelManager__Union)
    (ids : ModuleNameToEntityId) (wid : Z)
    (period : option (RecurringPeriod T))
    (s : store) (r : ref) (t : RLTrainingOutput) :
  nth_error s r = Some t ->
  (forall v,
     validation_result t = None ->
     validate (value validator) t = Returns v ->
     exists r' s' t',
       run_validator validator r s = (Ok r', s', [EValidate r])
       /\ r' <> r /\ nth_error s' r' = Some t' /\ preserved s s'
       /\ nth_error s' r = Some t
       /\ validation_result t' = Some v
       /\ publishing_result t' = publishing_result t
       /\ training_report t' = training_report t
       /\ local_output_path t' = local_output_path t)
  /\ (forall p,
       publishing_result t = None ->
       publish (value publisher) (value model_chooser) t ids wid period
       = Returns p ->
       exists r' s' t',
         run_publisher publisher model_chooser r ids wid period s
         = (Ok r', s', [EPublish r])
         /\ r' <> r /\ nth_error s' r' = Some t' /\ preserved s s'
         /\ nth_error s' r = Some t
         /\ publishing_result t' = Some p
         /\ validation_result t' = validation_result t
         /\ training_report t' = training_report t
         /\ local_output_path t' = local_output_path t).
Proof.
  intros Hr. split.
  - intros v Hunset Hval.
    exists (List.length s), (s ++ [replace_validation_result t v]),
           (replace_validation_result t v).
    destruct (preserved_alloc s (replace_validation_result t v)) as [Hp Hn].
    repeat split; eauto using allocated_not_fresh.
    unfold run_validator, deref, bind at 1. rewrite Hr, Hunset.
    cbv [bind call emit lift escaped]. now rewrite Hval.
  - intros v Hunset Hpub.
    exists (List.length s), (s ++ [replace_publishing_result t v]),
           (replace_publishing_result t v).
    destruct (preserved_alloc s (replace_publishing_result t v)) as [Hp Hn].
    repeat split; eauto using allocated_not_fresh.
    unfold run_publisher, deref, bind at 1. rewrite Hr, Hunset.
    cbv [bind call emit lift escaped]. now rewrite Hpub.
Qed.

(** *** Properties of [query_and_train] *)

(** Exactly one of the two data inputs is non-null. *)
Definition exactly_one
    (setup_data : option SetupData)
    (normalization_data_map : option NormalizationDataMap) : bool :=
  xorb (is_not_None setup_data) (is_not_None normalization_data_map).

Definition is_query_or_train (e : event) : bool :=
  match e with
  | EQueryData _ | ETrainWorkflow _ => true
  | _ => false
  end.

Definition is_data_module_call (e : event) : bool :=
  match e with
  | EGetDataModule _ | EPrepareData => true
  | _ => false
  end.

Definition mutually_exclusive_error : exn :=
  ValueError "setup_data and normalization_data_map are mutually exclusive".

Definition events {A} (out : result A * store * list event) : list event :=
  snd out.

Lemma bind_inv {A B} (m : M A) (f : A -> M B) s r s' evs :
  bind m f s = (r, s', evs) ->
  (exists e, m s = (Err e, s', evs) /\ r = Err e)
  \/ (exists a s1 t1 t2,
        m s = (Ok a, s1, t1) /\ f a s1 = (r, s', t2) /\ evs = t1 ++ t2).
Proof.
  unfold bind. destruct (m s) as [[[a|e] s1] t1].
  - destruct (f a s1) as [[r2 s2] t2] eqn:E. intros H; inversion H; subst.
    right. now exists a, s1, t1, t2.
  - intros H; inversion H; subst. left. now exists e.
Qed.

Lemma bind_ok {A B} (m : M A) (f : A -> M B) s a s1 t1 :
  m s = (Ok a, s1, t1) ->
  bind m f s = (let '(r, s2, t2) := f a s1 in (r, s2, t1 ++ t2)).
Proof. unfold bind. now intros ->. Qed.

(** Breaks a run of a sequence of steps into the runs of its steps. *)
Ltac step_inv H :=
  let e := fresh "e" in
  let a := fresh "a" in
  let s1 := fresh "s" in
  let t1 := fresh "t" in
  let t2 := fresh "t" in
  let H1 := fresh "H" in
  let H2 := fresh "H" in
  apply bind_inv in H;
  destruct H as [(e & H1 & ->) | (a & s1 & t1 & t2 & H1 & H2 & ->)].

(** Symbolic execution of a run [H : m s = (r, s', evs)]: the steps are
    unfolded and every call result the run branches on is split into its
    returning and its raising case. *)
Ltac exec_step H :=
  match type of H with
  | context [match ?x with _ => _ end] =>
      lazymatch x with
      | context [match _ with _ => _ end] => fail
      | _ => destruct x eqn:?
      end
  end;
  cbn beta iota zeta in H.

Ltac exec H :=
  cbv [call emit lift escaped ret raise alloc deref bind] in H;
  cbn beta iota zeta in H;
  repeat exec_step H;
  inversion H; subst; clear H.

Section QueryAndTrain.

Variables
  (input_table_spec : TableSpec)
  (model : ModelManager__Union)
  (num_epochs : Z)
  (use_gpu : bool)
  (setup_data : option SetupData)
  (saved_setup_data : option (Dict SavedValue))
  (normalization_data_map : option NormalizationDataMap)
  (reward_options : option (RewardOptions T))
  (reader_options : option (ReaderOptions T))
  (resource_options : option (ResourceOptions T))
  (warmstart_path : option string)
  (validator : option ModelValidator__Union)
  (publisher : option ModelPublisher__Union)
  (named_model_ids : option ModuleNameToEntityId)
  (recurring_period : option (RecurringPeriod T)).

Let resolve : M Resolved :=
  query_and_train_resolve input_table_spec model setup_data saved_setup_data
    normalization_data_map reward_options reader_options resource_options
    named_model_ids.

Let run : Resolved -> M ref :=
  query_and_train_run input_table_spec model num_epochs use_gpu
    warmstart_path validator publisher recurring_period.

Lemma resolve_inv s r s' evs :
  resolve s = (r, s', evs) ->
  s' = s
  /\ Forall (fun e => is_query_or_train e = false) evs
  /\ (is_not_None setup_data = true ->
      Forall (fun e => is_data_module_call e = false) evs
      /\ forall x, r = Ok x ->
           r_setup_data x = setup_data
           /\ r_normalization_data_map x = normalization_data_map).
Proof.
  unfold resolve, query_and_train_resolve. intros H.
  exec H; simpl; repeat split; intros; try discriminate;
    repeat constructor;
    match goal with
    | H : Ok _ = Ok _ |- _ => inversion H; subst; reflexivity
    | _ => idtac
    end.
Qed.

Lemma run_rejects x s :
  exactly_one (r_setup_data x) (r_normalization_data_map x) = false ->
  run x s = (Err mutually_exclusive_error, s, []).
Proof.
  unfold run, query_and_train_run, exactly_one.
  destruct (r_setup_data x), (r_normalization_data_map x);
    simpl; intros; try discriminate; reflexivity.
Qed.

Lemma run_inv x s r s' evs :
  run x s = (r, s', evs) ->
  Forall (fun e => is_data_module_call e = false) evs
  /\ (forall a, In (ETrainWorkflow a) evs ->
       exactly_one (tw_setup_data a) (tw_normalization_data_map a) = true
       /\ tw_setup_data a = r_setup_data x
       /\ tw_normalization_data_map a = r_normalization_data_map x)
  /\ (r_normalization_data_map x = None ->
      is_not_None (r_setup_data x) = true ->
      exists a, In (ETrainWorkflow a) evs
                /\ tw_setup_data a = r_setup_data x
                /\ tw_train_dataset a = None /\ tw_eval_dataset a = None).
Proof.
  unfold run, query_and_train_run, run_validator, run_publisher,
    assertion_failure, exactly_one.
  intros H.
  destruct (r_setup_data x) as [sd|], (r_normalization_data_map x) as [ndm|];
    simpl in H; exec H; simpl; (split; [repeat constructor|]); split;
    try (intros; discriminate);
    try (intros _ _; eexists;
         split; [right; left; reflexivity | simpl; auto]; fail);
    intros ? Hin; simpl in Hin; intuition (try discriminate);
    match goal with
    | E : ETrainWorkflow _ = ETrainWorkflow _ |- _ =>
        inversion E; subst; simpl; auto
    end.
Qed.

(** C1.  Whenever [query_and_train] reaches the training step, exactly one
    of [setup_data] and [normalization_data_map] is non-null in the call;
    and when data resolution leaves none or both of them non-null, the call
    raises the mutual-exclusivity [ValueError] there and then, no query and
    no training step having run. *)
Theorem query_and_train_mutual_exclusion (s : store) :
  let out :=
    query_and_train input_table_spec model num_epochs use_gpu setup_data
      saved_setup_data normalization_data_map reward_options reader_options
      resource_options warmstart_path validator publisher named_model_ids
      recurring_period s in
  (forall a, In (ETrainWorkflow a) (events out) ->
     exactly_one (tw_setup_data a) (tw_normalization_data_map a) = true)
  /\ (forall x s1 evs1,
       resolve s = (Ok x, s1, evs1) ->
       exactly_one (r_setup_data x) (r_normalization_data_map x) = false ->
       out = (Err mutually_exclusive_error, s1, evs1)
       /\ Forall (fun e => is_query_or_train e = false) evs1).
Proof.
  intros out. subst out. unfold query_and_train. fold resolve. fold run.
  split.
  - intros a Hin.
    destruct (bind resolve run s) as [[r s'] evs] eqn:H. unfold events in Hin.
    simpl in Hin. step_inv H.
    + apply resolve_inv in H0 as (_ & Hq & _).
      rewrite Forall_forall in Hq. now apply Hq in Hin.
    + apply resolve_inv in H0 as (_ & Hq & _).
      apply run_inv in H1 as (_ & Ht & _).
      apply in_app_or in Hin as [Hin|Hin].
      * rewrite Forall_forall in Hq. now apply Hq in Hin.
      * now apply Ht.
  - intros x s1 evs1 Hres Hex. split.
    + rewrite (bind_ok _ _ _ _ _ _ Hres), (run_rejects _ _ Hex).
      now rewrite app_nil_r.
    + now apply resolve_inv in Hres.
Qed.

(** C10.  When the caller supplies [setup_data], [query_and_train] calls
    neither [get_data_module] nor [prepare_data], and every training step
    receives the supplied [setup_data].  Once the identifiers are obtained
    (the only earlier steps that can raise), a call without
    [normalization_data_map] reaches the training step with the supplied
    [setup_data], and a call that also supplies [normalization_data_map]
    raises the mutual-exclusivity [ValueError]: the map is not discarded. *)
Theorem supplied_setup_data_bypasses_data_module (sd : SetupData) (s : store) :
  setup_data = Some sd ->
  let out :=
    query_and_train input_table_spec model num_epochs use_gpu setup_data
      saved_setup_data normalization_data_map reward_options reader_options
      resource_options warmstart_path validator publisher named_model_ids
      recurring_period s in
  Forall (fun e => is_data_module_call e = false) (events out)
  /\ (forall a, In (ETrainWorkflow a) (events out) ->
       tw_setup_data a = Some sd)
  /\ (forall x s1 evs1,
       resolve s = (Ok x, s1, evs1) ->
       (normalization_data_map = None ->
        exists a, In (ETrainWorkflow a) (events out)
                  /\ tw_setup_data a = Some sd)
       /\ (is_not_None normalization_data_map = true ->
           out = (Err mutually_exclusive_error, s1, evs1))).
Proof.
  intros Hsd out. subst out. unfold query_and_train. fold resolve. fold run.
  assert (is_not_None setup_data = true) as Hset by now rewrite Hsd.
  destruct (bind resolve run s) as [[r s'] evs] eqn:H. unfold events; simpl.
  split; [|split].
  - step_inv H.
    + apply resolve_inv in H0 as (_ & _ & Hd). now apply Hd.
    + apply resolve_inv in H0 as (_ & _ & Hd). destruct (Hd Hset) as [Hd1 _].
      apply run_inv in H1 as (Hr & _). apply Forall_app. now split.
  - intros a Hin. step_inv H.
    + apply resolve_inv in H0 as (_ & Hq & _).
      rewrite Forall_forall in Hq. now apply Hq in Hin.
    + apply resolve_inv in H0 as (_ & Hq & Hd).
      destruct (Hd Hset) as [_ Hx]. destruct (Hx _ eq_refl) as [Hx1 _].
      apply run_inv in H1 as (_ & Ht & _).
      apply in_app_or in Hin as [Hin|Hin].
      * rewrite Forall_forall in Hq. now apply Hq in Hin.
      * destruct (Ht _ Hin) as (_ & -> & _). congruence.
  - intros x s1 evs1 Hres.
    pose proof (resolve_inv _ _ _ _ Hres) as (_ & _ & Hd).
    destruct (Hd Hset) as [_ Hx]. destruct (Hx _ eq_refl) as [Hx1 Hx2].
    rewrite (bind_ok _ _ _ _ _ _ Hres) in H. split.
    + intros Hndm. destruct (run x s1) as [[r2 s2] t2] eqn:Hrun.
      inversion H; subst r s' evs.
      apply run_inv in Hrun as (_ & _ & He).
      destruct He as (a & Hin & Ha & _); try congruence.
      exists a. split; [apply in_or_app; now right | congruence].
    + intros Hndm. rewrite run_rejects in H.
      * now rewrite app_nil_r in H.
      * unfold exactly_one. now rewrite Hx1, Hx2, Hset, Hndm.
Qed.


Lemma preserved_refl (s : store) : preserved s s.
Proof. now intros r t H. Qed.

Lemma preserved_app (s l : store) : preserved s (s ++ l).
Proof.
  intros r t H. rewrite nth_error_app1; [exact H|].
  apply nth_error_Some. congruence.
Qed.

Lemma preserved_trans (s1 s2 s3 : store) :
  preserved s1 s2 -> preserved s2 s3 -> preserved s1 s3.
Proof. intros H12 H23 r t H. auto. Qed.

Lemma nth_error_last (s : store) (t : RLTrainingOutput) :
  nth_error (s ++ [t]) (List.length s) = Some t.
Proof. apply preserved_alloc. Qed.

Ltac deref_cleanup :=
  repeat match goal with
         | H : nth_error (?s ++ [?a]) (List.length ?s) = _ |- _ =>
             rewrite nth_error_last in H; inversion H; subst; clear H
         end.

Ltac solve_preserved :=
  repeat first
    [ apply preserved_refl
    | apply preserved_app
    | eapply preserved_trans; [|apply preserved_app] ].

Ltac exec_run H :=
  unfold run, query_and_train_run, run_validator, run_publisher,
    assertion_failure in H;
  destruct (r_setup_data _) as [?sd|] eqn:?Hsd,
           (r_normalization_data_map _) as [?ndm|] eqn:?Hndm;
  simpl in H; exec H; deref_cleanup.

Lemma run_store x s r s' evs :
  run x s = (r, s', evs) ->
  preserved s s'
  /\ (forall ref, r = Ok ref ->
       List.length s <= ref /\ ref < List.length s').
Proof.
  intros H. exec_run H;
    (split;
     [ solve_preserved
     | intros ? E; inversion E; subst; rewrite ?length_app; simpl; lia ]).
Qed.

(** The record a returning run hands back. *)
Lemma run_result x s ref s' evs :
  run x s = (Ok ref, s', evs) ->
  exists a t final,
    In (ETrainWorkflow a) evs
    /\ train_workflow (value model) a = Returns t
    /\ nth_error s' ref = Some final
    /\ training_report final = training_report t
    /\ local_output_path final = local_output_path t
    /\ match validator with
       | None => validation_result final = validation_result t
       | Some vd =>
           validation_result t = None
           /\ exists v, validate (value vd) t = Returns v
                        /\ validation_result final = Some v
       end
    /\ match publisher with
       | None => publishing_result final = publishing_result t
       | Some pb =>
           publishing_result t = None
           /\ exists p,
                publish (value pb) (value model)
                  (mkOutput (validation_result final) None
                            (training_report t) (local_output_path t))
                  (tw_named_model_ids a) (tw_child_workflow_id a)
                  recurring_period = Returns p
                /\ publishing_result final = Some p
       end.
Proof.
  intros H. exec_run H;
    eexists; eexists; eexists;
    (split; [simpl; eauto 6|]);
    (split; [eassumption|]);
    (split; [apply nth_error_last|]);
    unfold replace_publishing_result, replace_validation_result in *;
    repeat match goal with t : RLTrainingOutput |- _ => destruct t end;
    simpl in *; subst; repeat split; eauto.
Qed.

Definition is_stage_call (e : event) : bool :=
  match e with
  | EValidate _ | EPublish _ => true
  | _ => false
  end.

(** What every training call of a run receives. *)
Lemma run_train_call x s r s' evs :
  run x s = (r, s', evs) ->
  forall a, In (ETrainWorkflow a) evs ->
    tw_num_epochs a = num_epochs
    /\ tw_use_gpu a = use_gpu
    /\ tw_warmstart_path a = warmstart_path
    /\ tw_named_model_ids a = r_named_model_ids x
    /\ tw_child_workflow_id a = r_child_workflow_id x
    /\ tw_reward_options a = r_reward_options x
    /\ tw_reader_options a = r_reader_options x
    /\ tw_resource_options a = r_resource_options x
    /\ match r_normalization_data_map x with
       | None =>
           tw_train_dataset a = None /\ tw_eval_dataset a = None
           /\ forall range, ~ In (EQueryData range) evs
       | Some _ =>
           exists ranges d,
             get_sample_range input_table_spec
               (should_generate_eval_dataset (value model)) = Ok ranges
             /\ query_data (value model) input_table_spec
                  (train_sample_range ranges) (r_reward_options x)
                = Returns d
             /\ tw_train_dataset a = Some d
             /\ if should_generate_eval_dataset (value model)
                then exists d',
                       query_data (value model) input_table_spec
                         (eval_sample_range ranges) (r_reward_options x)
                       = Returns d'
                       /\ tw_eval_dataset a = Some d'
                else tw_eval_dataset a = None
       end.
Proof.
  intros H. exec_run H; intros ? Hin; simpl in Hin;
    intuition (try discriminate);
    match goal with
    | E : ETrainWorkflow _ = ETrainWorkflow _ |- _ =>
        inversion E; subst; clear E; simpl
    end;
    repeat split; try reflexivity;
    try match goal with
        | Hq : In (EQueryData _) _ |- False =>
            simpl in Hq; intuition discriminate
        end;
    try (eexists; eexists; repeat split; try eassumption; try reflexivity;
         try (eexists; split; [eassumption | reflexivity])).
Qed.

(** A training step that raises ends the run there. *)
Lemma run_train_raises x s r s' evs :
  run x s = (r, s', evs) ->
  forall a tag, In (ETrainWorkflow a) evs ->
    train_workflow (value model) a = Raises tag ->
    r = Err (Raised tag) /\ s' = s
    /\ Forall (fun e => is_stage_call e = false) evs.
Proof.
  intros H. exec_run H; intros ? ? Hin Hraise; simpl in Hin;
    intuition (try discriminate);
    match goal with
    | E : ETrainWorkflow _ = ETrainWorkflow _ |- _ =>
        inversion E; subst; clear E
    end;
    simpl in *;
    try match goal with
        | H1 : ?c = Returns _, H2 : ?c = Raises _ |- _ =>
            rewrite H1 in H2; discriminate
        end;
    match goal with
    | H1 : ?c = Raises _, H2 : ?c = Raises _ |- _ =>
        rewrite H1 in H2; inversion H2; subst
    end;
    repeat split; repeat constructor.
Qed.

Definition is_id_call (e : event) : bool :=
  match e with
  | EServingModuleNames | EGetNewNamedEntityIds _ => true
  | _ => false
  end.

Definition is_query (e : event) : bool :=
  match e with
  | EQueryData _ => true
  | _ => false
  end.

(** [saved_setup_data] as [get_data_module] receives it (line 156). *)
Definition unwrapped (saved : option (Dict SavedValue)) : option SetupData :=
  match saved with
  | Some d => Some (map (fun kv => (fst kv, _maybe_get_bytes (snd kv))) d)
  | None => None
  end.

(** What lines 136-168 leave in the local variables. *)
Lemma resolve_values s x s1 evs1 :
  resolve s = (Ok x, s1, evs1) ->
  get_workflow_id = Returns (r_child_workflow_id x)
  /\ r_reward_options x = or_default reward_options (new_RewardOptions T)
  /\ r_reader_options x = or_default reader_options (new_ReaderOptions T)
  /\ r_resource_options x
     = or_default resource_options (new_ResourceOptions T)
  /\ match named_model_ids with
     | Some ids =>
         r_named_model_ids x = ids
         /\ Forall (fun e => is_id_call e = false) evs1
     | None =>
         exists names,
           serving_module_names (value model) = Returns names
           /\ get_new_named_entity_ids names
              = Returns (r_named_model_ids x)
     end
  /\ match setup_data with
     | Some _ =>
         r_setup_data x = setup_data
         /\ r_normalization_data_map x = normalization_data_map
     | None =>
         exists data_module,
           get_data_module (value model) input_table_spec
             (r_reward_options x) (r_reader_options x)
             (unwrapped saved_setup_data) = Returns data_module
           /\ match data_module with
              | Some dm =>
                  prepare_data dm = Returns (r_setup_data x)
                  /\ r_normalization_data_map x = None
              | None =>
                  r_setup_data x = None
                  /\ r_normalization_data_map x = normalization_data_map
              end
     end.
Proof.
  unfold resolve, query_and_train_resolve, unwrapped. intros H.
  exec H; simpl; repeat split; try reflexivity; try assumption;
    repeat constructor;
    try (eexists; split; [eassumption|]; simpl; auto; fail);
    try (eexists; split; [reflexivity | eassumption]).
Qed.

Lemma run_stops_before_training x s ndm :
  r_setup_data x = None -> r_normalization_data_map x = Some ndm ->
  let calc := should_generate_eval_dataset (value model) in
  let query range :=
    query_data (value model) input_table_spec range (r_reward_options x) in
  (forall e,
     get_sample_range input_table_spec calc = Err e ->
     run x s = (Err e, s, []))
  /\ (forall ranges tag,
       get_sample_range input_table_spec calc = Ok ranges ->
       query (train_sample_range ranges) = Raises tag ->
       run x s
       = (Err (Raised tag), s, [EQueryData (train_sample_range ranges)]))
  /\ (forall ranges d tag,
       get_sample_range input_table_spec calc = Ok ranges ->
       calc = true ->
       query (train_sample_range ranges) = Returns d ->
       query (eval_sample_range ranges) = Raises tag ->
       run x s
       = (Err (Raised tag), s,
          [EQueryData (train_sample_range ranges);
           EQueryData (eval_sample_range ranges)])).
Proof.
  intros Hsd Hndm calc query. unfold run, query_and_train_run.
  rewrite Hsd, Hndm. fold calc. simpl.
  repeat split.
  - intros e He. cbv [bind lift raise ret]. now rewrite He.
  - intros ranges tag Hr Hq. unfold query in Hq.
    cbv [bind lift raise ret call emit escaped]. rewrite Hr. simpl.
    now rewrite Hq.
  - intros ranges d tag Hr Hc Hq1 Hq2. unfold query in Hq1, Hq2.
    cbv [bind lift raise ret call emit escaped]. rewrite Hr. simpl.
    rewrite Hq1, Hc. simpl. now rewrite Hq2.
Qed.

Lemma run_makes_no_id_call x s r s' evs :
  run x s = (r, s', evs) -> Forall (fun e => is_id_call e = false) evs.
Proof.
  intros H. exec_run H; repeat constructor.
Qed.

(** Lines 170-220 raise a [ValueError] at the exclusivity check only. *)
Lemma run_value_error x s msg s' evs :
  run x s = (Err (ValueError msg), s', evs) ->
  exactly_one (r_setup_data x) (r_normalization_data_map x) = false.
Proof.
  intros H. exec_run H; unfold exactly_one; rewrite ?Hsd, ?Hndm;
    try reflexivity;
    match goal with
    | E : get_sample_range _ _ = Err _ |- _ =>
        apply get_sample_range_raises_assertion in E as [? E]; discriminate
    end.
Qed.

Lemma resolve_error s e s' evs :
  resolve s = (Err e, s', evs) -> exists tag, e = Raised tag.
Proof.
  unfold resolve, query_and_train_resolve. intros H. exec H; eauto.
Qed.

Lemma resolve_events_in s r s' evs e :
  resolve s = (r, s', evs) -> In e evs ->
  is_query_or_train e = false.
Proof.
  intros H Hin. apply resolve_inv in H as (_ & Hq & _).
  rewrite Forall_forall in Hq. auto.
Qed.

(** A train event of the whole call is a train event of lines 170-220. *)
Lemma train_event_of_run s x evs1 evs2 a :
  resolve s = (Ok x, s, evs1) ->
  In (ETrainWorkflow a) (evs1 ++ evs2) -> In (ETrainWorkflow a) evs2.
Proof.
  intros Hres Hin. apply in_app_or in Hin as [Hin|Hin]; [|assumption].
  now apply (resolve_events_in _ _ _ _ _ Hres) in Hin.
Qed.

(** [prepare_data] is called on the data module of the manager only. *)
Lemma resolve_prepare s r s' evs :
  resolve s = (r, s', evs) -> In EPrepareData evs ->
  exists dm,
    get_data_module (value model) input_table_spec
      (or_default reward_options (new_RewardOptions T))
      (or_default reader_options (new_ReaderOptions T))
      (unwrapped saved_setup_data) = Returns (Some dm).
Proof.
  unfold resolve, query_and_train_resolve, unwrapped. intros H Hin.
  exec H; simpl in Hin; intuition (try discriminate); eauto.
Qed.

Definition result_of {A} (out : result A * store * list event) : result A :=
  fst (fst out).

Definition store_of {A} (out : result A * store * list event) : store :=
  snd (fst out).

Let out (s : store) : result ref * store * list event :=
  query_and_train input_table_spec model num_epochs use_gpu setup_data
    saved_setup_data normalization_data_map reward_options reader_options
    resource_options warmstart_path validator publisher named_model_ids
    recurring_period s.

Lemma out_inv s r s' evs :
  out s = (r, s', evs) ->
  (exists e, resolve s = (Err e, s', evs) /\ r = Err e /\ s' = s)
  \/ (exists x evs1 evs2,
        resolve s = (Ok x, s, evs1) /\ run x s = (r, s', evs2)
        /\ evs = evs1 ++ evs2).
Proof.
  unfold out, query_and_train. fold resolve. fold run. intros H.
  step_inv H.
  - left. exists e. pose proof (resolve_inv _ _ _ _ H0) as (-> & _).
    now repeat split.
  - right. pose proof (resolve_inv _ _ _ _ H0) as (-> & _).
    now exists a, t, t0.
Qed.

(** X4.  The record a returning call hands back: the one [train_workflow]
    returned, with the validator's result set if a validator was given and the
    publisher's result set if a publisher was given.  A given stage found its
    field unset, and the publisher was handed the record as the validation
    stage left it. *)
Theorem query_and_train_returns (s s' : store) (ref : ref) (evs : list event) :
  out s = (Ok ref, s', evs) ->
  exists a t final,
    In (ETrainWorkflow a) evs
    /\ train_workflow (value model) a = Returns t
    /\ nth_error s' ref = Some final
    /\ training_report final = training_report t
    /\ local_output_path final = local_output_path t
    /\ match validator with
       | None => validation_result final = validation_result t
       | Some vd =>
           validation_result t = None
           /\ exists v, validate (value vd) t = Returns v
                        /\ validation_result final = Some v
       end
    /\ match publisher with
       | None => publishing_result final = publishing_result t
       | Some pb =>
           publishing_result t = None
           /\ exists p,
                publish (value pb) (value model)
                  (mkOutput (validation_result final) None
                            (training_report t) (local_output_path t))
                  (tw_named_model_ids a) (tw_child_workflow_id a)
                  recurring_period = Returns p
                /\ publishing_result final = Some p
       end.
Proof.
  intros H. apply out_inv in H
    as [(e & _ & E & _) | (x & evs1 & evs2 & _ & Hrun & ->)];
    [discriminate|].
  destruct (run_result _ _ _ _ _ Hrun) as (a & t & final & Hin & Hrest).
  exists a, t, final. split; [apply in_or_app; now right | exact Hrest].
Qed.

(** X5.  Every training step receives [num_epochs], [use_gpu] and
    [warmstart_path] as the caller gave them, the three option records with
    [X()] in place of a missing one, the identifier that [get_workflow_id]
    returned, and the caller's [named_model_ids]; when the caller supplied
    these, no identifier was allocated for the serving modules. *)
Theorem query_and_train_training_arguments (s : store) :
  forall a, In (ETrainWorkflow a) (events (out s)) ->
    tw_num_epochs a = num_epochs
    /\ tw_use_gpu a = use_gpu
    /\ tw_warmstart_path a = warmstart_path
    /\ tw_reward_options a
       = or_default reward_options (new_RewardOptions T)
    /\ tw_reader_options a
       = or_default reader_options (new_ReaderOptions T)
    /\ tw_resource_options a
       = or_default resource_options (new_ResourceOptions T)
    /\ get_workflow_id = Returns (tw_child_workflow_id a)
    /\ match named_model_ids with
       | Some ids =>
           tw_named_model_ids a = ids
           /\ Forall (fun e => is_id_call e = false) (events (out s))
       | None =>
           exists names,
             serving_module_names (value model) = Returns names
             /\ get_new_named_entity_ids names
                = Returns (tw_named_model_ids a)
       end.
Proof.
  intros a Hin. destruct (out s) as [[r s'] evs] eqn:H.
  unfold events in *; simpl in *.
  apply out_inv in H
    as [(e & Hres & _) | (x & evs1 & evs2 & Hres & Hrun & ->)].
  - now apply (resolve_events_in _ _ _ _ _ Hres) in Hin.
  - apply (train_event_of_run _ _ _ _ _ Hres) in Hin.
    destruct (run_train_call _ _ _ _ _ Hrun a Hin)
      as (-> & -> & -> & Hids & Hwid & -> & -> & -> & _).
    destruct (resolve_values _ _ _ _ Hres)
      as (Hw & -> & -> & -> & Hnames & _).
    rewrite Hids, Hwid. repeat split; try assumption.
    destruct named_model_ids as [ids|]; [|exact Hnames].
    destruct Hnames as [-> Hno]. split; [reflexivity|].
    apply Forall_app. split; [assumption|].
    exact (run_makes_no_id_call _ _ _ _ _ Hrun).
Qed.

(** X6.  Where the datasets of a training step come from.  Training on setup
    data is handed no dataset, and no query was made.  Training on a
    normalization data map is handed the result of [query_data] on the train
    window of [get_sample_range], and the result of [query_data] on its eval
    window exactly when the manager asks for an eval dataset. *)
Theorem query_and_train_datasets (s : store) :
  forall a, In (ETrainWorkflow a) (events (out s)) ->
    match tw_normalization_data_map a with
    | None =>
        tw_train_dataset a = None /\ tw_eval_dataset a = None
        /\ Forall (fun e => is_query e = false) (events (out s))
    | Some _ =>
        exists ranges d,
          get_sample_range input_table_spec
            (should_generate_eval_dataset (value model)) = Ok ranges
          /\ query_data (value model) input_table_spec
               (train_sample_range ranges) (tw_reward_options a)
             = Returns d
          /\ tw_train_dataset a = Some d
          /\ if should_generate_eval_dataset (value model)
             then exists d',
                    query_data (value model) input_table_spec
                      (eval_sample_range ranges) (tw_reward_options a)
                    = Returns d'
                    /\ tw_eval_dataset a = Some d'
             else tw_eval_dataset a = None
    end.
Proof.
  intros a Hin. destruct (out s) as [[r s'] evs] eqn:H.
  unfold events in *; simpl in *.
  apply out_inv in H
    as [(e & Hres & _) | (x & evs1 & evs2 & Hres & Hrun & ->)].
  - now apply (resolve_events_in _ _ _ _ _ Hres) in Hin.
  - apply (train_event_of_run _ _ _ _ _ Hres) in Hin.
    destruct (run_train_call _ _ _ _ _ Hrun a Hin)
      as (_ & _ & _ & _ & _ & -> & _ & _ & Hdata).
    destruct (run_inv _ _ _ _ _ Hrun) as (_ & Ht & _).
    destruct (Ht a Hin) as (_ & _ & ->).
    destruct (r_normalization_data_map x); [exact Hdata|].
    destruct Hdata as (-> & -> & Hnone). repeat split.
    apply Forall_forall. intros e He.
    destruct e; try reflexivity. exfalso.
    apply in_app_or in He as [He|He].
    + now apply (resolve_events_in _ _ _ _ _ Hres) in He.
    + exact (Hnone _ He).
Qed.

(** X7.  A training step that raises ends the call with its exception: no
    record has been created, and neither stage is run. *)
Theorem query_and_train_training_failure (s : store) :
  forall a tag, In (ETrainWorkflow a) (events (out s)) ->
    train_workflow (value model) a = Raises tag ->
    result_of (out s) = Err (Raised tag)
    /\ store_of (out s) = s
    /\ Forall (fun e => is_stage_call e = false) (events (out s)).
Proof.
  intros a tag Hin Hraise. destruct (out s) as [[r s'] evs] eqn:H.
  unfold events, result_of, store_of in *; simpl in *.
  apply out_inv in H
    as [(e & Hres & _) | (x & evs1 & evs2 & Hres & Hrun & ->)].
  - now apply (resolve_events_in _ _ _ _ _ Hres) in Hin.
  - apply (train_event_of_run _ _ _ _ _ Hres) in Hin.
    destruct (run_train_raises _ _ _ _ _ Hrun a tag Hin Hraise)
      as (-> & -> & Hno).
    repeat split. apply Forall_app. split; [|assumption].
    unfold resolve, query_and_train_resolve in Hres.
    exec Hres; repeat constructor.
Qed.

(** X8.  On the normalization-map path, a sample-range configuration that
    [get_sample_range] rejects, or a query that raises, ends the call with
    that exception before any later query and before training. *)
Theorem query_and_train_stops_before_training
    (s : store) (x : Resolved) (evs1 : list event)
    (ndm : NormalizationDataMap) :
  resolve s = (Ok x, s, evs1) ->
  r_setup_data x = None -> r_normalization_data_map x = Some ndm ->
  let calc := should_generate_eval_dataset (value model) in
  let query range :=
    query_data (value model) input_table_spec range (r_reward_options x) in
  (forall e,
     get_sample_range input_table_spec calc = Err e ->
     out s = (Err e, s, evs1))
  /\ (forall ranges tag,
       get_sample_range input_table_spec calc = Ok ranges ->
       query (train_sample_range ranges) = Raises tag ->
       out s
       = (Err (Raised tag), s,
          evs1 ++ [EQueryData (train_sample_range ranges)]))
  /\ (forall ranges d tag,
       get_sample_range input_table_spec calc = Ok ranges ->
       calc = true ->
       query (train_sample_range ranges) = Returns d ->
       query (eval_sample_range ranges) = Raises tag ->
       out s
       = (Err (Raised tag), s,
          evs1 ++ [EQueryData (train_sample_range ranges);
                   EQueryData (eval_sample_range ranges)])).
Proof.
  intros Hres Hsd Hndm calc query.
  destruct (run_stops_before_training x s ndm Hsd Hndm) as (H1 & H2 & H3).
  unfold out, query_and_train. fold resolve. fold run.
  rewrite (bind_ok _ _ _ _ _ _ Hres).
  repeat split.
  - intros e He. rewrite (H1 e He). now rewrite app_nil_r.
  - intros ranges tag Hr Hq. now rewrite (H2 ranges tag Hr Hq).
  - intros ranges d tag Hr Hc Hq1 Hq2.
    now rewrite (H3 ranges d tag Hr Hc Hq1 Hq2).
Qed.

(** X9.  Data resolution when the caller supplies no [setup_data]. If the
    manager has a data module, the setup data is whatever [prepare_data]
    returns and a supplied normalization data map is thrown away, so that a
    [prepare_data] returning [None] makes the call raise the
    mutual-exclusivity error even with a map supplied.  If the manager has no
    data module, the supplied map is used as it is. *)
Theorem data_resolution_without_setup_data
    (s : store) (x : Resolved) (evs1 : list event) :
  setup_data = None ->
  resolve s = (Ok x, s, evs1) ->
  exists data_module,
    get_data_module (value model) input_table_spec
      (or_default reward_options (new_RewardOptions T))
      (or_default reader_options (new_ReaderOptions T))
      (unwrapped saved_setup_data) = Returns data_module
    /\ match data_module with
       | Some dm =>
           prepare_data dm = Returns (r_setup_data x)
           /\ r_normalization_data_map x = None
           /\ (r_setup_data x = None ->
               out s = (Err mutually_exclusive_error, s, evs1))
       | None =>
           r_setup_data x = None
           /\ r_normalization_data_map x = normalization_data_map
           /\ (normalization_data_map = None ->
               out s = (Err mutually_exclusive_error, s, evs1))
       end
    /\ (forall a, In (ETrainWorkflow a) (events (out s)) ->
         tw_setup_data a = r_setup_data x
         /\ tw_normalization_data_map a = r_normalization_data_map x).
Proof.
  intros Hnone Hres.
  destruct (resolve_values _ _ _ _ Hres) as (_ & Hro & Hrdo & _ & _ & Hdata).
  rewrite Hnone in Hdata. destruct Hdata as (dmo & Hget & Hcase).
  rewrite Hro, Hrdo in Hget. exists dmo. split; [exact Hget|].
  assert (exactly_one (r_setup_data x) (r_normalization_data_map x) = false ->
          out s = (Err mutually_exclusive_error, s, evs1)) as Hfail.
  { intros Hex. unfold out, query_and_train. fold resolve. fold run.
    rewrite (bind_ok _ _ _ _ _ _ Hres), (run_rejects _ _ Hex).
    now rewrite app_nil_r. }
  split.
  - destruct dmo as [dm|].
    + destruct Hcase as [Hp Hn]. repeat split; try assumption.
      intros Hs. apply Hfail. unfold exactly_one. now rewrite Hs, Hn.
    + destruct Hcase as [Hs Hn]. repeat split; try assumption.
      intros Hm. apply Hfail. unfold exactly_one. now rewrite Hs, Hn, Hm.
  - intros a Hin. unfold events, out, query_and_train in Hin.
    fold resolve in Hin. fold run in Hin.
    rewrite (bind_ok _ _ _ _ _ _ Hres) in Hin.
    destruct (run x s) as [[r2 s2] t2] eqn:Hrun. simpl in Hin.
    apply (train_event_of_run _ _ _ _ _ Hres) in Hin.
    destruct (run_inv _ _ _ _ _ Hrun) as (_ & Ht & _).
    now destruct (Ht a Hin) as (_ & -> & ->).
Qed.

End QueryAndTrain.

(** *** [saved_setup_data] (lines 147-156) *)

(** X10.  [saved_setup_data] matters through its bytes only, and only when the
    caller supplies no [setup_data]: two calls that differ in it alone run
    alike when [setup_data] is given, or when unwrapping yields the same bytes
    under the same keys.  Wrapping every value as raw bytes again after
    unwrapping changes nothing. *)
Theorem saved_setup_data_by_its_bytes
    (input_table_spec : TableSpec) (model : ModelManager__Union)
    (num_epochs : Z) (use_gpu : bool) (setup_data : option SetupData)
    (saved1 saved2 : option (Dict SavedValue))
    (normalization_data_map : option NormalizationDataMap)
    (reward_options : option (RewardOptions T))
    (reader_options : option (ReaderOptions T))
    (resource_options : option (ResourceOptions T))
    (warmstart_path : option string)
    (validator : option ModelValidator__Union)
    (publisher : option ModelPublisher__Union)
    (named_model_ids : option ModuleNameToEntityId)
    (recurring_period : option (RecurringPeriod T)) (s : store) :
  (is_not_None setup_data = true \/ unwrapped saved1 = unwrapped saved2 ->
   query_and_train input_table_spec model num_epochs use_gpu setup_data
     saved1 normalization_data_map reward_options reader_options
     resource_options warmstart_path validator publisher named_model_ids
     recurring_period s
   = query_and_train input_table_spec model num_epochs use_gpu setup_data
       saved2 normalization_data_map reward_options reader_options
       resource_options warmstart_path validator publisher named_model_ids
       recurring_period s)
  /\ (forall d,
       unwrapped
         (Some (map (fun kv => (fst kv, RawBytes (_maybe_get_bytes (snd kv))))
                    d))
       = unwrapped (Some d)).
Proof.
  split.
  - intros H. unfold query_and_train, query_and_train_resolve.
    destruct setup_data as [sd|]; [reflexivity|].
    destruct H as [H|H]; [discriminate|].
    destruct saved1 as [d1|], saved2 as [d2|]; try discriminate;
      [|reflexivity].
    unfold unwrapped in H. inversion H as [Hd]. cbv zeta. now rewrite Hd.
  - intros d. unfold unwrapped. f_equal. rewrite map_map.
    apply map_ext. now intros [k v].
Qed.

(** *** Stages in sequence *)

Lemma run_validator_eq validator r s t :
  nth_error s r = Some t ->
  run_validator validator r s
  = match validation_result t with
    | Some _ =>
        assertion_failure "validation_output was set to f" t
          "validation_output" s
    | None =>
        match validate (value validator) t with
        | Returns v =>
            (Ok (List.length s), s ++ [replace_validation_result t v],
             [EValidate r])
        | Raises tag => (Err (Raised tag), s, [EValidate r])
        end
    end.
Proof.
  intros Hr. unfold run_validator, deref, bind at 1. rewrite Hr.
  destruct (validation_result t).
  - destruct (assertion_failure _ _ _ s) as [[r0 s0] t0] eqn:E.
    unfold assertion_failure in *.
    destruct (format_attr t "validation_output"); inversion E; reflexivity.
  - cbv [bind call emit lift escaped ret raise alloc].
    now destruct (validate (value validator) t).
Qed.

Lemma run_publisher_eq publisher model_chooser r ids wid period s t :
  nth_error s r = Some t ->
  run_publisher publisher model_chooser r ids wid period s
  = match publishing_result t with
    | Some _ =>
        assertion_failure "publishing_output was set to f" t
          "publishing_output" s
    | None =>
        match publish (value publisher) (value model_chooser) t ids wid
                period with
        | Returns p =>
            (Ok (List.length s), s ++ [replace_publishing_result t p],
             [EPublish r])
        | Raises tag => (Err (Raised tag), s, [EPublish r])
        end
    end.
Proof.
  intros Hr. unfold run_publisher, deref, bind at 1. rewrite Hr.
  destruct (publishing_result t).
  - destruct (assertion_failure _ _ _ s) as [[r0 s0] t0] eqn:E.
    unfold assertion_failure in *.
    destruct (format_attr t "publishing_output"); inversion E; reflexivity.
  - cbv [bind call emit lift escaped ret raise alloc].
    now destruct (publish _ _ t ids wid period).
Qed.

(** X11.  A stage cannot be run on its own output: the record it returns has
    the stage's field set, so a second validation (or publishing) of that
    record raises at the assertion.  The record the stage was given is still
    there with its field unset. *)
Theorem stage_runs_once
    (validator validator2 : ModelValidator__Union)
    (publisher publisher2 : ModelPublisher__Union)
    (model_chooser : ModelManager__Union)
    (ids : ModuleNameToEntityId) (wid : Z)
    (period : option (RecurringPeriod T))
    (s s' : store) (r r' : ref) (t : RLTrainingOutput) (evs : list event) :
  nth_error s r = Some t ->
  (run_validator validator r s = (Ok r', s', evs) ->
   (exists e,
      run_validator validator2 r' s' = (Err e, s', [])
      /\ raised_by_assert "validation_output was set to f"
                          "validation_output" e)
   /\ nth_error s' r = Some t /\ validation_result t = None)
  /\ (run_publisher publisher model_chooser r ids wid period s
      = (Ok r', s', evs) ->
      (exists e,
         run_publisher publisher2 model_chooser r' ids wid period s'
         = (Err e, s', [])
         /\ raised_by_assert "publishing_output was set to f"
                             "publishing_output" e)
      /\ nth_error s' r = Some t /\ publishing_result t = None).
Proof.
  intros Hr. split; intros Hrun.
  - rewrite (run_validator_eq _ _ _ _ Hr) in Hrun.
    destruct (validation_result t) eqn:Hv.
    + destruct (assertion_failure_spec (A:=ref)
                  "validation_output was set to f" t "validation_output" s)
        as (e & He & _).
      rewrite He in Hrun. discriminate.
    + destruct (validate (value validator) t) as [v|tag];
        inversion Hrun; subst; clear Hrun.
      destruct (preserved_alloc s (replace_validation_result t v))
        as [Hp Hn].
      split; [|split; auto].
      rewrite (run_validator_eq _ _ _ _ Hn). simpl.
      apply assertion_failure_spec.
  - rewrite (run_publisher_eq _ _ _ _ _ _ _ _ Hr) in Hrun.
    destruct (publishing_result t) eqn:Hv.
    + destruct (assertion_failure_spec (A:=ref)
                  "publishing_output was set to f" t "publishing_output" s)
        as (e & He & _).
      rewrite He in Hrun. discriminate.
    + destruct (publish _ _ t ids wid period) as [p|tag];
        inversion Hrun; subst; clear Hrun.
      destruct (preserved_alloc s (replace_publishing_result t p))
        as [Hp Hn].
      split; [|split; auto].
      rewrite (run_publisher_eq _ _ _ _ _ _ _ _ Hn). simpl.
      apply assertion_failure_spec.
Qed.


(** *** [identify_and_train_network] (lines 27-74) *)

Section Identify.

(** [torch.cuda.is_available()]. *)
Variable cuda_is_available : bool.

(** [manager.run_feature_identification(input_table_spec)]. *)
Variable run_feature_identification :
  ModelManager -> TableSpec -> outcome NormalizationDataMap.

(** The calls of the entry point: feature identification, and the calls
    recorded as for [query_and_train]. *)
Inductive entry_event : Type :=
| ERunFeatureIdentification
| EWorkflow (e : event).

(** [get_data_module] is called here without [saved_setup_data], which is
    then [None]. *)
Definition identify_and_train_network
    (input_table_spec : TableSpec)
    (model : ModelManager__Union)
    (num_epochs : Z)
    (use_gpu : option bool)
    (reward_options : option (RewardOptions T))
    (reader_options : option (ReaderOptions T))
    (resource_options : option (ResourceOptions T))
    (warmstart_path : option string)
    (validator : option ModelValidator__Union)
    (publisher : option ModelPublisher__Union)
    (s : store) : result ref * store * list entry_event :=
  let use_gpu :=
    match use_gpu with
    | None => cuda_is_available
    | Some use_gpu => use_gpu
    end in
  let reward_options := or_default reward_options (new_RewardOptions T) in
  let reader_options := or_default reader_options (new_ReaderOptions T) in
  let manager := value model in
  match get_data_module manager input_table_spec reward_options
          reader_options None with
  | Raises tag => (Err (Raised tag), s, [EWorkflow (EGetDataModule None)])
  | Returns data_module =>
    let data :=
      match data_module with
      | Some data_module =>
          match prepare_data data_module with
          | Returns setup_data =>
              (Ok (setup_data, None), [EWorkflow EPrepareData])
          | Raises tag => (Err (Raised tag), [EWorkflow EPrepareData])
          end
      | None =>
          match run_feature_identification manager input_table_spec with
          | Returns normalization_data_map =>
              (Ok (None, Some normalization_data_map),
               [ERunFeatureIdentification])
          | Raises tag => (Err (Raised tag), [ERunFeatureIdentification])
          end
      end in
    match data with
    | (Err e, evs) => (Err e, s, EWorkflow (EGetDataModule None) :: evs)
    | (Ok (setup_data, normalization_data_map), evs) =>
        let '(r, s', evs') :=
          query_and_train input_table_spec model num_epochs use_gpu
            setup_data None normalization_data_map (Some reward_options)
            (Some reader_options) resource_options warmstart_path validator
            publisher None None s in
        (r, s', EWorkflow (EGetDataModule None) :: evs ++ map EWorkflow evs')
    end
  end.

(** **** Properties of [identify_and_train_network] *)

Definition entry_events {A} (out : result A * store * list entry_event)
    : list entry_event :=
  snd out.

Definition is_data_module_entry (e : entry_event) : bool :=
  match e with
  | EWorkflow e => is_data_module_call e
  | ERunFeatureIdentification => false
  end.

Lemma filter_none {A} (f : A -> bool) (l : list A) :
  Forall (fun a => f a = false) l -> filter f l = [].
Proof.
  induction 1 as [|a l Ha _ IH]; simpl; [reflexivity|]. now rewrite Ha.
Qed.

Lemma in_workflow_events (e : event) (evs : list event) :
  In (EWorkflow e) (map EWorkflow evs) -> In e evs.
Proof.
  intros H. apply in_map_iff in H as (e' & E & Hin). now inversion E; subst.
Qed.

Section Entry.

Variables
  (input_table_spec : TableSpec)
  (model : ModelManager__Union)
  (num_epochs : Z)
  (use_gpu : option bool)
  (reward_options : option (RewardOptions T))
  (reader_options : option (ReaderOptions T))
  (resource_options : option (ResourceOptions T))
  (warmstart_path : option string)
  (validator : option ModelValidator__Union)
  (publisher : option ModelPublisher__Union).

Let entry (s : store) : result ref * store * list entry_event :=
  identify_and_train_network input_table_spec model num_epochs use_gpu
    reward_options reader_options resource_options warmstart_path validator
    publisher s.

(** The first call of the entry point (lines 51-55). *)
Let first_data_module : outcome (option DataModule) :=
  get_data_module (value model) input_table_spec
    (or_default reward_options (new_RewardOptions T))
    (or_default reader_options (new_ReaderOptions T)) None.

(** The call of [query_and_train] on lines 61-74. *)
Let inner (sd : option SetupData) (ndm : option NormalizationDataMap)
    (s : store) : result ref * store * list event :=
  query_and_train input_table_spec model num_epochs
    match use_gpu with None => cuda_is_available | Some b => b end
    sd None ndm (Some (or_default reward_options (new_RewardOptions T)))
    (Some (or_default reader_options (new_ReaderOptions T)))
    resource_options warmstart_path validator publisher None None s.

Lemma entry_eq s :
  entry s
  = match first_data_module with
    | Raises tag => (Err (Raised tag), s, [EWorkflow (EGetDataModule None)])
    | Returns (Some dm) =>
        match prepare_data dm with
        | Returns sd =>
            let '(r, s', evs') := inner sd None s in
            (r, s',
             EWorkflow (EGetDataModule None) :: EWorkflow EPrepareData
               :: map EWorkflow evs')
        | Raises tag =>
            (Err (Raised tag), s,
             [EWorkflow (EGetDataModule None); EWorkflow EPrepareData])
        end
    | Returns None =>
        match run_feature_identification (value model) input_table_spec with
        | Returns ndm =>
            let '(r, s', evs') := inner None (Some ndm) s in
            (r, s',
             EWorkflow (EGetDataModule None) :: ERunFeatureIdentification
               :: map EWorkflow evs')
        | Raises tag =>
            (Err (Raised tag), s,
             [EWorkflow (EGetDataModule None); ERunFeatureIdentification])
        end
    end.
Proof.
  unfold entry, identify_and_train_network, first_data_module, inner.
  destruct (get_data_module _ _ _ _ _) as [[dm|]|tag]; simpl;
    try reflexivity.
  - now destruct (prepare_data dm).
  - now destruct (run_feature_identification _ _).
Qed.

(** What the inner call does with the data it is handed. *)
Lemma inner_inv sd ndm s r s' evs :
  inner sd ndm s = (r, s', evs) ->
  (forall msg, r = Err (ValueError msg) ->
     exists x evs1,
       query_and_train_resolve input_table_spec model sd None ndm
         (Some (or_default reward_options (new_RewardOptions T)))
         (Some (or_default reader_options (new_ReaderOptions T)))
         resource_options None s = (Ok x, s, evs1)
       /\ exactly_one (r_setup_data x) (r_normalization_data_map x) = false)
  /\ (forall a, In (ETrainWorkflow a) evs ->
       exists x evs1,
         query_and_train_resolve input_table_spec model sd None ndm
           (Some (or_default reward_options (new_RewardOptions T)))
           (Some (or_default reader_options (new_ReaderOptions T)))
           resource_options None s = (Ok x, s, evs1)
         /\ tw_setup_data a = r_setup_data x
         /\ tw_normalization_data_map a = r_normalization_data_map x
         /\ tw_use_gpu a
            = match use_gpu with None => cuda_is_available | Some b => b end
         /\ (r_normalization_data_map x = None ->
             tw_train_dataset a = None /\ tw_eval_dataset a = None)
         /\ (r_normalization_data_map x <> None ->
             tw_train_dataset a <> None)).
Proof.
  unfold inner. intros H.
  apply out_inv in H
    as [(e & Hres & -> & ->) | (x & evs1 & evs2 & Hres & Hrun & ->)].
  - split.
    + intros msg E. apply resolve_error in Hres as [tag ->]. discriminate.
    + intros a Hin.
      assert (is_query_or_train (ETrainWorkflow a) = false) as N
        by (eapply resolve_events_in; eassumption).
      discriminate.
  - split.
    + intros msg ->. exists x, evs1. split; [assumption|].
      eapply run_value_error; eassumption.
    + intros a Hin.
      eapply train_event_of_run in Hin; [|exact Hres].
      exists x, evs1. split; [assumption|].
      pose proof Hrun as Hrun'.
      eapply run_inv in Hrun' as (_ & Ht & _).
      destruct (Ht a Hin) as (_ & Hs & Hn).
      pose proof Hrun as Hrun'.
      eapply run_train_call in Hrun'
        as (_ & Hg & _ & _ & _ & _ & _ & _ & Hdata); [|exact Hin].
      repeat split; try assumption.
      * rewrite H in Hdata. tauto.
      * rewrite H in Hdata. tauto.
      * intros E.
        destruct (r_normalization_data_map x); [|congruence].
        destruct Hdata as (ranges & d & _ & _ & Hd & _). congruence.
Qed.

Definition entry_result {A} (out : result A * store * list entry_event)
    : result A :=
  fst (fst out).

Definition default_use_gpu : bool :=
  match use_gpu with None => cuda_is_available | Some b => b end.

(** X12.  With a data module whose [prepare_data] returns setup data, the
    entry point consults the data module once and never again, runs no feature
    identification, and every training step receives the prepared setup data,
    no normalization data map and no dataset, with [use_gpu] as given or else
    as the hardware check says. *)
Theorem identify_with_data_module
    (s : store) (dm : DataModule) (sd : SetupData) :
  first_data_module = Returns (Some dm) ->
  prepare_data dm = Returns (Some sd) ->
  filter is_data_module_entry (entry_events (entry s))
  = [EWorkflow (EGetDataModule None); EWorkflow EPrepareData]
  /\ ~ In ERunFeatureIdentification (entry_events (entry s))
  /\ (forall a,
       In (EWorkflow (ETrainWorkflow a)) (entry_events (entry s)) ->
       tw_setup_data a = Some sd
       /\ tw_normalization_data_map a = None
       /\ tw_train_dataset a = None /\ tw_eval_dataset a = None
       /\ tw_use_gpu a = default_use_gpu).
Proof.
  intros Hdm Hprep. rewrite entry_eq, Hdm, Hprep.
  destruct (inner (Some sd) None s) as [[r s'] evs] eqn:Hin.
  unfold entry_events; simpl.
  assert (Forall (fun e => is_data_module_call e = false) evs) as Hno.
  { unfold inner in Hin. apply out_inv in Hin
      as [(e & Hres & _) | (x & evs1 & evs2 & Hres & Hrun & ->)].
    - apply resolve_inv in Hres as (_ & _ & Hd).
      now destruct (Hd eq_refl).
    - apply resolve_inv in Hres as (_ & _ & Hd).
      destruct (Hd eq_refl) as [Hd1 _].
      apply run_inv in Hrun as (Hr & _).
      apply Forall_app. now split. }
  split; [|split].
  - f_equal. f_equal. apply filter_none. apply Forall_map.
    exact Hno.
  - intros [E|[E|E]]; try discriminate.
    apply in_map_iff in E as (e & E & _). discriminate.
  - intros a [E|[E|E]]; try discriminate.
    apply in_workflow_events in E.
    destruct (inner_inv _ _ _ _ _ _ Hin) as (_ & Ht).
    destruct (Ht a E) as (x & evs1 & Hres & Hs & Hn & Hg & Hd & _).
    apply resolve_inv in Hres as (_ & _ & Hx).
    destruct Hx as (_ & Hx); [reflexivity|].
    destruct (Hx x eq_refl) as [Hx1 Hx2].
    rewrite Hs, Hn, Hx1, Hx2. destruct (Hd Hx2) as [-> ->].
    now repeat split.
Qed.

(** X13.  Without a data module, feature identification supplies the
    normalization data map.  [prepare_data] is never called, no [ValueError]
    is raised (the mutual-exclusivity check passes), and every training step
    receives that map, no setup data, and a train dataset.  The manager is
    taken to answer [get_data_module] in [query_and_train] as it answered it
    in the entry point. *)
Theorem identify_without_data_module
    (s : store) (ndm : NormalizationDataMap) :
  first_data_module = Returns None ->
  run_feature_identification (value model) input_table_spec = Returns ndm ->
  ~ In (EWorkflow EPrepareData) (entry_events (entry s))
  /\ (forall msg, entry_result (entry s) <> Err (ValueError msg))
  /\ (forall a,
       In (EWorkflow (ETrainWorkflow a)) (entry_events (entry s)) ->
       tw_setup_data a = None
       /\ tw_normalization_data_map a = Some ndm
       /\ tw_train_dataset a <> None
       /\ tw_use_gpu a = default_use_gpu).
Proof.
  intros Hdm Hident. rewrite entry_eq, Hdm, Hident.
  destruct (inner None (Some ndm) s) as [[r s'] evs] eqn:Hin.
  unfold entry_events, entry_result; simpl.
  assert (forall x evs1,
            query_and_train_resolve input_table_spec model None None
              (Some ndm)
              (Some (or_default reward_options (new_RewardOptions T)))
              (Some (or_default reader_options (new_ReaderOptions T)))
              resource_options None s = (Ok x, s, evs1) ->
            r_setup_data x = None
            /\ r_normalization_data_map x = Some ndm) as Hresolved.
  { intros x evs1 Hres.
    destruct (resolve_values _ _ _ _ _ _ _ _ _ _ _ _ _ Hres)
      as (_ & Hro & Hrdo & _ & _ & dmo & Hget & Hcase).
    rewrite Hro, Hrdo in Hget. simpl in Hget.
    unfold first_data_module in Hdm. rewrite Hdm in Hget.
    inversion Hget; subst dmo. exact Hcase. }
  destruct (inner_inv _ _ _ _ _ _ Hin) as (Hv & Ht).
  split; [|split].
  - intros [E|[E|E]]; try discriminate.
    apply in_workflow_events in E.
    unfold inner in Hin. apply out_inv in Hin
      as [(e & Hres & _) | (x & evs1 & evs2 & Hres & Hrun & ->)].
    + apply (resolve_prepare _ _ _ _ _ _ _ _ _ _ _ _ _ Hres) in E
        as (dm & Hget).
      simpl in Hget. unfold first_data_module in Hdm. congruence.
    + apply in_app_or in E as [E|E].
      * apply (resolve_prepare _ _ _ _ _ _ _ _ _ _ _ _ _ Hres) in E
          as (dm & Hget).
        simpl in Hget. unfold first_data_module in Hdm. congruence.
      * apply run_inv in Hrun as (Hr & _).
        rewrite Forall_forall in Hr. apply Hr in E. discriminate.
  - intros msg E. destruct (Hv msg E) as (x & evs1 & Hres & Hex).
    destruct (Hresolved _ _ Hres) as [Hs Hn].
    unfold exactly_one in Hex. rewrite Hs, Hn in Hex. discriminate.
  - intros a [E|[E|E]]; try discriminate.
    apply in_workflow_events in E.
    destruct (Ht a E) as (x & evs1 & Hres & Hs & Hn & Hg & _ & Hd).
    destruct (Hresolved _ _ Hres) as [Hx1 Hx2].
    rewrite Hs, Hn, Hx1, Hx2. repeat split; try assumption.
    apply Hd. rewrite Hx2. discriminate.
Qed.

(** X14.  The entry point raises the mutual-exclusivity error only when the
    manager has a data module whose [prepare_data] returns [None]. In that
    case, once the identifiers are obtained, it does raise it, having asked
    for the data module and run [prepare_data] twice: once itself and once
    more in [query_and_train]. *)
Theorem identify_mutual_exclusion (s : store) :
  (entry_result (entry s) = Err mutually_exclusive_error ->
   exists dm,
     first_data_module = Returns (Some dm)
     /\ prepare_data dm = Returns None)
  /\ (forall dm wid names ids,
       first_data_module = Returns (Some dm) ->
       prepare_data dm = Returns None ->
       get_workflow_id = Returns wid ->
       serving_module_names (value model) = Returns names ->
       get_new_named_entity_ids names = Returns ids ->
       entry s
       = (Err mutually_exclusive_error, s,
          [ EWorkflow (EGetDataModule None); EWorkflow EPrepareData;
            EWorkflow EGetWorkflowId; EWorkflow EServingModuleNames;
            EWorkflow (EGetNewNamedEntityIds names);
            EWorkflow (ELog "Starting query");
            EWorkflow (EGetDataModule None); EWorkflow EPrepareData ])).
Proof.
  split.
  - rewrite entry_eq. unfold entry_result.
    destruct first_data_module as [[dm|]|tag] eqn:Hdm; simpl;
      [| |discriminate].
    + destruct (prepare_data dm) as [[sd|]|tag] eqn:Hprep; simpl;
        [|eauto|discriminate].
      destruct (inner (Some sd) None s) as [[r s'] evs] eqn:Hin. simpl.
      intros ->. exfalso.
      destruct (inner_inv _ _ _ _ _ _ Hin) as (Hv & _).
      destruct (Hv _ eq_refl) as (x & evs1 & Hres & Hex).
      apply resolve_inv in Hres as (_ & _ & Hx).
      destruct (Hx eq_refl) as (_ & Hx').
      destruct (Hx' x eq_refl) as [Hx1 Hx2].
      unfold exactly_one in Hex. rewrite Hx1, Hx2 in Hex. discriminate.
    + destruct (run_feature_identification _ _) as [ndm|tag] eqn:Hident;
        simpl; [|discriminate].
      destruct (inner None (Some ndm) s) as [[r s'] evs] eqn:Hin. simpl.
      intros ->. exfalso.
      destruct (inner_inv _ _ _ _ _ _ Hin) as (Hv & _).
      destruct (Hv _ eq_refl) as (x & evs1 & Hres & Hex).
      destruct (resolve_values _ _ _ _ _ _ _ _ _ _ _ _ _ Hres)
        as (_ & Hro & Hrdo & _ & _ & dmo & Hget & Hcase).
      rewrite Hro, Hrdo in Hget. simpl in Hget.
      unfold first_data_module in Hdm. rewrite Hdm in Hget.
      inversion Hget; subst dmo. destruct Hcase as [Hs Hn].
      unfold exactly_one in Hex. rewrite Hs, Hn in Hex. discriminate.
  - intros dm wid names ids Hdm Hprep Hwid Hnames Hids.
    rewrite entry_eq, Hdm, Hprep.
    unfold inner, query_and_train, query_and_train_resolve,
      query_and_train_run.
    unfold first_data_module in Hdm.
    cbv [bind call emit lift escaped ret raise].
    rewrite Hwid, Hnames. cbn beta iota zeta. rewrite Hids.
    cbn [or_default]. cbn beta iota zeta.
    match goal with
    | |- context [get_data_module ?m ?t ?ro ?rdo ?sv] =>
        replace (get_data_module m t ro rdo sv)
          with (@Returns (option DataModule) (Some dm))
          by (symmetry; exact Hdm)
    end.
    cbn beta iota zeta. rewrite Hprep. reflexivity.
Qed.

End Entry.

End Identify.

End Orchestrator.

Arguments mkOutput {T}.
Arguments mkTrainArgs {T}.
Arguments EGetWorkflowId {T}.
Arguments EServingModuleNames {T}.
Arguments EGetNewNamedEntityIds {T}.
Arguments ELog {T}.
Arguments EGetDataModule {T}.
Arguments EPrepareData {T}.
Arguments EQueryData {T}.
Arguments ETrainWorkflow {T}.
Arguments EValidate {T}.
Arguments EPublish {T}.
Arguments ERunFeatureIdentification {T}.
Arguments EWorkflow {T}.

(** *** A concrete run

    A small instance of the collaborators, on which the statements above
    are exercised. *)

Module Fixture.

Definition types : ExternalTypes := {|
  RewardOptions := string;
  ReaderOptions := string;
  ResourceOptions := string;
  NormalizationData := string;
  Dataset := SampleRange;
  RecurringPeriod := string;
  TrainingReport := string;
  ValidationResult := bool;
  PublishingResult := string;
  new_RewardOptions := "RewardOptions()";
  new_ReaderOptions := "ReaderOptions()";
  new_ResourceOptions := "ResourceOptions()"
|}.

Definition get_workflow_id : outcome Z := Returns 7%Z.

Definition get_new_named_entity_ids
    (names : list string) : outcome ModuleNameToEntityId :=
  Returns (map (fun n => (n, 1%Z)) names).

(** The output record has no attribute besides its four fields. *)
Definition format_attr
    (t : RLTrainingOutput types) (attr : string) : option string := None.

(** A manager without a data module. *)
Definition manager : ModelManager types := {|
  serving_module_names := Returns ["default_model"];
  get_data_module := fun _ _ _ _ => Returns None;
  should_generate_eval_dataset := true;
  query_data := fun _ range _ => Returns (range : Dataset types);
  train_workflow :=
    fun _ => Returns (mkOutput (T:=types) None None (Some "report") None)
|}.

Definition validator : ModelValidator__Union types :=
  mkUnion {| validate := fun _ => Returns (true : ValidationResult types) |}.

Definition publisher : ModelPublisher__Union types :=
  mkUnion
    {| publish := fun _ _ _ _ _ => Returns ("published" : PublishingResult types) |}.

Definition table : TableSpec :=
  mkTableSpec "table" (Some 80.0%float) (Some 15.0%float).

Definition setup_data : SetupData := [("preprocessing", [Byte.x01])].

Definition normalization_data_map : NormalizationDataMap types :=
  [("state", "mean=0,std=1")].

Definition fresh_output : RLTrainingOutput types :=
  mkOutput (T:=types) None None (Some "report") None.

Definition finished_output : RLTrainingOutput types :=
  mkOutput (T:=types) (Some true) (Some "published") (Some "report") None.

(** With a normalization data map and cross-partition evaluation, the run
    queries both windows, trains, validates and publishes. *)
Example full_run :
  query_and_train types get_workflow_id get_new_named_entity_ids format_attr
    table (mkUnion manager) 10%Z false None None
    (Some normalization_data_map) None None None None
    (Some validator) (Some publisher) None None []
  = (Ok 2%nat,
     [ fresh_output;
       mkOutput (T:=types) (Some true) None (Some "report") None;
       finished_output ],
     [ EGetWorkflowId; EServingModuleNames;
       EGetNewNamedEntityIds ["default_model"];
       ELog "Starting query"; EGetDataModule None;
       EQueryData (0.0, 80.0)%float;
       EQueryData (85.0, 100.0)%float;
       ELog "Starting training";
       ETrainWorkflow
         (mkTrainArgs (T:=types) (Some (0.0, 80.0)%float)
            (Some (85.0, 100.0)%float) 10%Z false None
            (Some normalization_data_map) [("default_model", 1%Z)] 7%Z
            "RewardOptions()" "ReaderOptions()" "ResourceOptions()" None);
       EValidate 0%nat; EPublish 1%nat ]).
Proof. reflexivity. Qed.

(** A manager whose data module prepares its own setup data. *)
Definition data_manager : ModelManager types := {|
  serving_module_names := Returns ["default_model"];
  get_data_module :=
    fun _ _ _ _ =>
      Returns (Some {| prepare_data := Returns (Some [("prepared", [Byte.x02])]) |});
  should_generate_eval_dataset := true;
  query_data := fun _ range _ => Returns (range : Dataset types);
  train_workflow := fun _ => Returns fresh_output
|}.

Definition ids : ModuleNameToEntityId := [("default_model", 1%Z)].

Definition prelude_events : list (event types) :=
  [ EGetWorkflowId; EServingModuleNames;
    EGetNewNamedEntityIds ["default_model"]; ELog "Starting query" ].

Definition resolved
    (sd : option SetupData) (ndm : option (NormalizationDataMap types))
    : Resolved types :=
  mkResolved types 7%Z ids "RewardOptions()" "ReaderOptions()"
             "ResourceOptions()" sd ndm.

(** The data module's setup data replaces a supplied normalization map. *)
Example data_module_discards_map :
  query_and_train_resolve types get_workflow_id get_new_named_entity_ids
    table (mkUnion data_manager) None None (Some normalization_data_map)
    None None None None []
  = (Ok (resolved (Some [("prepared", [Byte.x02])]) None), [],
     prelude_events ++ [EGetDataModule None; EPrepareData]).
Proof. reflexivity. Qed.

Lemma query_and_train_mutual_exclusion_witness :
  query_and_train_resolve types get_workflow_id get_new_named_entity_ids
    table (mkUnion manager) None None None None None None None []
  = (Ok (resolved None None), [], prelude_events ++ [EGetDataModule None])
  /\ exactly_one types (r_setup_data types (resolved None None))
       (r_normalization_data_map types (resolved None None)) = false
  /\ query_and_train types get_workflow_id get_new_named_entity_ids
       format_attr table (mkUnion manager) 10%Z false None None None None
       None None None (Some validator) (Some publisher) None None []
     = (Err mutually_exclusive_error, [],
        prelude_events ++ [EGetDataModule None]).
Proof.
  split; [reflexivity|]. split; [reflexivity|].
  apply (proj2
           (query_and_train_mutual_exclusion types get_workflow_id
              get_new_named_entity_ids format_attr table (mkUnion manager)
              10%Z false None None None None None None None (Some validator)
              (Some publisher) None None [])
           (resolved None None) []
           (prelude_events ++ [EGetDataModule None]));
    reflexivity.
Defined.

Lemma supplied_setup_data_bypasses_data_module_witness :
  query_and_train_resolve types get_workflow_id get_new_named_entity_ids
    table (mkUnion data_manager) (Some setup_data) None
    (Some normalization_data_map) None None None None []
  = (Ok (resolved (Some setup_data) (Some normalization_data_map)), [],
     prelude_events)
  /\ query_and_train types get_workflow_id get_new_named_entity_ids
       format_attr table (mkUnion data_manager) 10%Z false (Some setup_data)
       None (Some normalization_data_map) None None None None
       (Some validator) (Some publisher) None None []
     = (Err mutually_exclusive_error, [], prelude_events).
Proof.
  split; [reflexivity|].
  apply (proj2 (proj2
           (supplied_setup_data_bypasses_data_module types get_workflow_id
              get_new_named_entity_ids format_attr table
              (mkUnion data_manager) 10%Z false (Some setup_data) None
              (Some normalization_data_map) None None None None
              (Some validator) (Some publisher) None None setup_data []
              eq_refl))
           (resolved (Some setup_data) (Some normalization_data_map)) []
           prelude_events);
    reflexivity.
Defined.

Lemma stage_assertion_raises_attribute_error_witness :
  nth_error [fresh_output; finished_output] 1 = Some finished_output
  /\ run_validator types format_attr validator 1
       [fresh_output; finished_output]
     = (Err (AttributeError "validation_output"),
        [fresh_output; finished_output], [])
  /\ run_publisher types format_attr publisher (mkUnion manager) 1 ids
       7%Z None [fresh_output; finished_output]
     = (Err (AttributeError "publishing_output"),
        [fresh_output; finished_output], []).
Proof.
  split; [reflexivity|].
  destruct (stage_assertion_raises_attribute_error types format_attr
              validator publisher (mkUnion manager) ids 7%Z None
              [fresh_output; finished_output] 1 finished_output eq_refl)
    as [Hv Hp].
  split; [apply Hv | apply Hp]; reflexivity.
Defined.

Lemma stage_functional_update_witness :
  nth_error [fresh_output] 0 = Some fresh_output
  /\ (exists r' s' t',
        run_validator types format_attr validator 0 [fresh_output]
        = (Ok r', s', [EValidate 0])
        /\ r' <> 0%nat /\ nth_error s' r' = Some t'
        /\ nth_error s' 0 = Some fresh_output
        /\ validation_result types t' = Some true
        /\ publishing_result types t' = None)
  /\ (exists r' s' t',
        run_publisher types format_attr publisher (mkUnion manager) 0 ids
          7%Z None [fresh_output]
        = (Ok r', s', [EPublish 0])
        /\ r' <> 0%nat /\ nth_error s' r' = Some t'
        /\ nth_error s' 0 = Some fresh_output
        /\ publishing_result types t' = Some "published"
        /\ validation_result types t' = None).
Proof.
  split; [reflexivity|].
  destruct (stage_functional_update types format_attr validator publisher
              (mkUnion manager) ids 7%Z None [fresh_output] 0 fresh_output
              eq_refl)
    as [Hv Hp].
  split.
  - destruct (Hv true eq_refl eq_refl)
      as (r' & s' & t' & H1 & H2 & H3 & _ & H5 & H6 & H7 & _).
    exists r', s', t'. repeat split; assumption.
  - destruct (Hp "published" eq_refl eq_refl)
      as (r' & s' & t' & H1 & H2 & H3 & _ & H5 & H6 & H7 & _).
    exists r', s', t'. repeat split; assumption.
Defined.

(** **** Further runs *)

(** The call of the fixture on a store, by manager, table and data. *)
Definition call
    (m : ModelManager types) (t : TableSpec) (sd : option SetupData)
    (ndm : option (NormalizationDataMap types))
    (s : store types) : result ref * store types * list (event types) :=
  query_and_train types get_workflow_id get_new_named_entity_ids format_attr
    t (mkUnion m) 10%Z false sd None ndm None None None None
    (Some validator) (Some publisher) None None s.

Definition validated_output : RLTrainingOutput types :=
  mkOutput (T:=types) (Some true) None (Some "report") None.

Definition trained_on_map : TrainWorkflowArgs types :=
  mkTrainArgs (T:=types) (Some (0.0, 80.0)%float)
    (Some (85.0, 100.0)%float) 10%Z false None
    (Some normalization_data_map) ids 7%Z
    "RewardOptions()" "ReaderOptions()" "ResourceOptions()" None.

Definition full_run_events : list (event types) :=
  prelude_events
  ++ [ EGetDataModule None;
       EQueryData (0.0, 80.0)%float; EQueryData (85.0, 100.0)%float;
       ELog "Starting training"; ETrainWorkflow trained_on_map;
       EValidate 0%nat; EPublish 1%nat ].

Lemma full_call :
  call manager table None (Some normalization_data_map) []
  = (Ok 2%nat, [fresh_output; validated_output; finished_output],
     full_run_events).
Proof. reflexivity. Qed.

Lemma trained_on_map_in_full_call :
  In (ETrainWorkflow trained_on_map)
     (events types
        (call manager table None (Some normalization_data_map) [])).
Proof.
  rewrite full_call. unfold events, full_run_events, prelude_events; simpl.
  do 8 right. now left.
Qed.

Lemma query_and_train_returns_witness :
  call manager table None (Some normalization_data_map) []
  = (Ok 2%nat, [fresh_output; validated_output; finished_output],
     full_run_events)
  /\ exists t final,
       train_workflow types manager trained_on_map = Returns t
       /\ nth_error [fresh_output; validated_output; finished_output] 2
          = Some final
       /\ training_report types final = training_report types t
       /\ validation_result types final = Some true
       /\ publishing_result types final = Some "published".
Proof.
  split; [exact full_call|].
  destruct (query_and_train_returns types get_workflow_id
              get_new_named_entity_ids format_attr table (mkUnion manager)
              10%Z false None None (Some normalization_data_map) None None
              None None (Some validator) (Some publisher) None None [] _ _ _
              full_call)
    as (a & t & final & Hin & Ht & Hn & Hr & _ & (_ & v & Hv & Hfv)
        & (_ & p & Hp & Hfp)).
  exists (mkOutput (T:=types) None None (Some "report") None), final.
  simpl in Hv, Hp, Hn. inversion Hv; subst v. inversion Hp; subst p.
  simpl in Hn. inversion Hn; subst final.
  repeat split; reflexivity.
Defined.

Lemma query_and_train_training_arguments_witness :
  In (ETrainWorkflow trained_on_map)
     (events types
        (call manager table None (Some normalization_data_map) []))
  /\ tw_num_epochs types trained_on_map = 10%Z
  /\ tw_use_gpu types trained_on_map = false
  /\ get_workflow_id = Returns (tw_child_workflow_id types trained_on_map).
Proof.
  split; [exact trained_on_map_in_full_call|].
  destruct (query_and_train_training_arguments types get_workflow_id
              get_new_named_entity_ids format_attr table (mkUnion manager)
              10%Z false None None (Some normalization_data_map) None None
              None None (Some validator) (Some publisher) None None []
              trained_on_map trained_on_map_in_full_call)
    as (H1 & H2 & _ & _ & _ & _ & H7 & _).
  now repeat split.
Defined.

Lemma query_and_train_datasets_witness :
  In (ETrainWorkflow trained_on_map)
     (events types
        (call manager table None (Some normalization_data_map) []))
  /\ exists ranges d d',
       get_sample_range table true = Ok ranges
       /\ query_data types manager table (train_sample_range ranges)
            "RewardOptions()" = Returns d
       /\ tw_train_dataset types trained_on_map = Some d
       /\ tw_eval_dataset types trained_on_map = Some d'.
Proof.
  split; [exact trained_on_map_in_full_call|].
  destruct (query_and_train_datasets types get_workflow_id
              get_new_named_entity_ids format_attr table (mkUnion manager)
              10%Z false None None (Some normalization_data_map) None None
              None None (Some validator) (Some publisher) None None []
              trained_on_map trained_on_map_in_full_call)
    as (ranges & d & Hr & Hq & Hd & d' & _ & Hd').
  now exists ranges, d, d'.
Defined.

(** A manager whose training diverges. *)
Definition failing_manager : ModelManager types := {|
  serving_module_names := Returns ["default_model"];
  get_data_module := fun _ _ _ _ => Returns None;
  should_generate_eval_dataset := false;
  query_data := fun _ range _ => Returns (range : Dataset types);
  train_workflow := fun _ => Raises "diverged"
|}.

Definition trained_on_setup_data : TrainWorkflowArgs types :=
  mkTrainArgs (T:=types) None None 10%Z false (Some setup_data) None ids 7%Z
    "RewardOptions()" "ReaderOptions()" "ResourceOptions()" None.

Lemma failing_call :
  call failing_manager table (Some setup_data) None [fresh_output]
  = (Err (Raised "diverged"), [fresh_output],
     prelude_events
     ++ [ELog "Starting training"; ETrainWorkflow trained_on_setup_data]).
Proof. reflexivity. Qed.

Lemma query_and_train_training_failure_witness :
  In (ETrainWorkflow trained_on_setup_data)
     (events types
        (call failing_manager table (Some setup_data) None [fresh_output]))
  /\ train_workflow types failing_manager trained_on_setup_data
     = Raises "diverged"
  /\ result_of types
       (call failing_manager table (Some setup_data) None [fresh_output])
     = Err (Raised "diverged")
  /\ store_of types
       (call failing_manager table (Some setup_data) None [fresh_output])
     = [fresh_output].
Proof.
  assert (In (ETrainWorkflow trained_on_setup_data)
            (events types
               (call failing_manager table (Some setup_data) None
                  [fresh_output]))) as Hin.
  { rewrite failing_call. unfold events, prelude_events; simpl.
    do 5 right. now left. }
  split; [exact Hin|]. split; [reflexivity|].
  destruct (query_and_train_training_failure types get_workflow_id
              get_new_named_entity_ids format_attr table
              (mkUnion failing_manager) 10%Z false (Some setup_data) None
              None None None None None (Some validator) (Some publisher)
              None None [fresh_output] trained_on_setup_data "diverged" Hin
              eq_refl)
    as (H1 & H2 & _).
  now split.
Defined.

(** Cross-partition evaluation on a table without sampling percentages. *)
Definition unsampled_table : TableSpec := mkTableSpec "table" None None.

Lemma query_and_train_stops_before_training_witness :
  query_and_train_resolve types get_workflow_id get_new_named_entity_ids
    unsampled_table (mkUnion manager) None None
    (Some normalization_data_map) None None None None []
  = (Ok (resolved None (Some normalization_data_map)), [],
     prelude_events ++ [EGetDataModule None])
  /\ get_sample_range unsampled_table true
     = Err (AssertionError (error_msg None None))
  /\ call manager unsampled_table None (Some normalization_data_map) []
     = (Err (AssertionError (error_msg None None)), [],
        prelude_events ++ [EGetDataModule None]).
Proof.
  split; [reflexivity|]. split; [reflexivity|].
  destruct (query_and_train_stops_before_training types get_workflow_id
              get_new_named_entity_ids format_attr unsampled_table
              (mkUnion manager) 10%Z false None None
              (Some normalization_data_map) None None None None
              (Some validator) (Some publisher) None None []
              (resolved None (Some normalization_data_map))
              (prelude_events ++ [EGetDataModule None])
              normalization_data_map eq_refl eq_refl eq_refl)
    as (H1 & _).
  exact (H1 _ eq_refl).
Defined.

Lemma data_resolution_without_setup_data_witness :
  query_and_train_resolve types get_workflow_id get_new_named_entity_ids
    table (mkUnion data_manager) None None (Some normalization_data_map)
    None None None None []
  = (Ok (resolved (Some [("prepared", [Byte.x02])]) None), [],
     prelude_events ++ [EGetDataModule None; EPrepareData])
  /\ exists dm,
       get_data_module types data_manager table "RewardOptions()"
         "ReaderOptions()" None = Returns (Some dm)
       /\ prepare_data dm = Returns (Some [("prepared", [Byte.x02])]).
Proof.
  split; [reflexivity|].
  destruct (data_resolution_without_setup_data types get_workflow_id
              get_new_named_entity_ids format_attr table
              (mkUnion data_manager) 10%Z false None None
              (Some normalization_data_map) None None None None
              (Some validator) (Some publisher) None None []
              (resolved (Some [("prepared", [Byte.x02])]) None)
              (prelude_events ++ [EGetDataModule None; EPrepareData])
              eq_refl eq_refl)
    as ([dm|] & Hget & Hcase & _).
  - exists dm. split; [exact Hget|]. now destruct Hcase as (Hp & _).
  - destruct Hcase as (Hs & _). discriminate.
Defined.

Lemma stage_runs_once_witness :
  nth_error [fresh_output] 0 = Some fresh_output
  /\ run_validator types format_attr validator 0 [fresh_output]
     = (Ok 1%nat, [fresh_output; validated_output], [EValidate 0%nat])
  /\ exists e,
       run_validator types format_attr validator 1
         [fresh_output; validated_output]
       = (Err e, [fresh_output; validated_output], [])
       /\ raised_by_assert "validation_output was set to f"
                           "validation_output" e.
Proof.
  split; [reflexivity|]. split; [reflexivity|].
  destruct (stage_runs_once types format_attr validator validator publisher
              publisher (mkUnion manager) ids 7%Z None [fresh_output]
              [fresh_output; validated_output] 0 1 fresh_output
              [EValidate 0%nat] eq_refl)
    as (Hv & _).
  now destruct (Hv eq_refl) as (He & _).
Defined.

(** **** The entry point *)

Definition run_feature_identification
    (m : ModelManager types) (t : TableSpec)
    : outcome (NormalizationDataMap types) :=
  Returns normalization_data_map.

Definition entry
    (m : ModelManager types) (t : TableSpec) (s : store types)
    : result ref * store types * list (entry_event types) :=
  identify_and_train_network types get_workflow_id get_new_named_entity_ids
    format_attr true run_feature_identification t (mkUnion m) 10%Z None
    None None None None (Some validator) (Some publisher) s.

(** Without a data module: identification, the queries, training and both
    stages.  [get_data_module] is asked twice. *)
Example entry_without_data_module :
  entry manager table []
  = (Ok 2%nat, [fresh_output; validated_output; finished_output],
     [EWorkflow (EGetDataModule None); ERunFeatureIdentification]
     ++ map EWorkflow
          (prelude_events
           ++ [ EGetDataModule None;
                EQueryData (0.0, 80.0)%float;
                EQueryData (85.0, 100.0)%float;
                ELog "Starting training";
                ETrainWorkflow
                  (mkTrainArgs (T:=types) (Some (0.0, 80.0)%float)
                     (Some (85.0, 100.0)%float) 10%Z true None
                     (Some normalization_data_map) ids 7%Z
                     "RewardOptions()" "ReaderOptions()"
                     "ResourceOptions()" None);
                EValidate 0%nat; EPublish 1%nat ])).
Proof. reflexivity. Qed.

Definition prepared_module : DataModule :=
  {| prepare_data := Returns (Some [("prepared", [Byte.x02])]) |}.

Lemma identify_with_data_module_witness :
  get_data_module types data_manager table "RewardOptions()"
    "ReaderOptions()" None = Returns (Some prepared_module)
  /\ prepare_data prepared_module = Returns (Some [("prepared", [Byte.x02])])
  /\ filter (is_data_module_entry types)
       (entry_events types (entry data_manager table []))
     = [EWorkflow (EGetDataModule None); EWorkflow EPrepareData]
  /\ ~ In ERunFeatureIdentification
         (entry_events types (entry data_manager table [])).
Proof.
  split; [reflexivity|]. split; [reflexivity|].
  destruct (identify_with_data_module types get_workflow_id
              get_new_named_entity_ids format_attr true
              run_feature_identification table (mkUnion data_manager) 10%Z
              None None None None None (Some validator) (Some publisher) []
              prepared_module [("prepared", [Byte.x02])] eq_refl eq_refl)
    as (H1 & H2 & _).
  now split.
Defined.

Lemma identify_without_data_module_witness :
  get_data_module types manager table "RewardOptions()" "ReaderOptions()"
    None = Returns None
  /\ run_feature_identification manager table
     = Returns normalization_data_map
  /\ ~ In (EWorkflow EPrepareData)
         (entry_events types (entry manager table []))
  /\ (forall msg,
       entry_result types (entry manager table [])
       <> Err (ValueError msg)).
Proof.
  split; [reflexivity|]. split; [reflexivity|].
  destruct (identify_without_data_module types get_workflow_id
              get_new_named_entity_ids format_attr true
              run_feature_identification table (mkUnion manager) 10%Z None
              None None None None (Some validator) (Some publisher) []
              normalization_data_map eq_refl eq_refl)
    as (H1 & H2 & _).
  now split.
Defined.

(** A manager whose data module prepares nothing. *)
Definition idle_module : DataModule := {| prepare_data := Returns None |}.

Definition idle_manager : ModelManager types := {|
  serving_module_names := Returns ["default_model"];
  get_data_module := fun _ _ _ _ => Returns (Some idle_module);
  should_generate_eval_dataset := false;
  query_data := fun _ range _ => Returns (range : Dataset types);
  train_workflow := fun _ => Returns fresh_output
|}.

Lemma identify_mutual_exclusion_witness :
  prepare_data idle_module = Returns None
  /\ entry idle_manager table [fresh_output]
     = (Err mutually_exclusive_error, [fresh_output],
        [ EWorkflow (EGetDataModule None); EWorkflow EPrepareData;
          EWorkflow EGetWorkflowId; EWorkflow EServingModuleNames;
          EWorkflow (EGetNewNamedEntityIds ["default_model"]);
          EWorkflow (ELog "Starting query");
          EWorkflow (EGetDataModule None); EWorkflow EPrepareData ]).
Proof.
  split; [reflexivity|].
  destruct (identify_mutual_exclusion types get_workflow_id
              get_new_named_entity_ids format_attr true
              run_feature_identification table (mkUnion idle_manager) 10%Z
              None None None None None (Some validator) (Some publisher)
              [fresh_output])
    as (_ & H).
  exact (H idle_module 7%Z ["default_model"] ids eq_refl eq_refl eq_refl
           eq_refl eq_refl).
Defined.

End Fixture.

End Workflow.

(** ** Reward-network evaluation ([reward_net_evaluator.py]) *)

Module Evaluator.

#[local] Open Scope float_scope.

(** *** Tensors and the two library functions used on them *)

(** A tensor, by its elements in row-major order: what [flatten()] yields.
    Elements are binary64: the tensors are taken to be of dtype [float64]. *)
Definition Tensor : Type := list float.

Definition float_of_nat (n : nat) : float :=
  of_uint63 (Uint63.of_Z (Z.of_nat n)).

Definition all_of_length (n : nat) (a : list Tensor) : bool :=
  forallb (fun t => Nat.eqb (List.length t) n) a.

(** [np.mean(a)] on a list of one-dimensional tensors.  The list is read as
    a two-dimensional array, which requires rows of one length; the mean is
    the sum of all elements divided by their number.  On the empty list
    that is [0.0 / 0.0], which is NaN: NumPy warns and returns it, it does
    not raise.

    The sum is accumulated in order, in binary64.  That is NumPy's sum on
    fewer than eight [float64] elements.  On longer arrays NumPy adds in
    blocks and pairs, and on [float32] tensors in single precision, so its
    mean can differ from this one in the last places.  The statements
    below take the mean as it comes; only the empty list and the two
    scenarios of C4, of one and two elements, have it computed. *)
Definition np_mean (a : list Tensor) : result float :=
  let rows_agree :=
    match a with
    | [] => true
    | t :: _ => all_of_length (List.length t) a
    end in
  if rows_agree then
    let elements := List.concat a in
    Ok (fold_left add elements 0.0 / float_of_nat (List.length elements))
  else
    Err (ValueError "setting an array element with a sequence")%string.

(** What [torch.cat] raises on the empty list.  Its class is the library's
    choice ([RuntimeError] in some versions, [ValueError] in others), so it
    is kept as a library exception, known by its message. *)
Definition torch_cat_empty : exn :=
  Raised "torch.cat(): expected a non-empty list of Tensors"%string.

(** [torch.cat(tensors)] on one-dimensional tensors; it raises on the empty
    list. *)
Definition torch_cat (tensors : list Tensor) : result Tensor :=
  match tensors with
  | [] => Err torch_cat_empty
  | _ => Ok (List.concat tensors)
  end.

(** *** Batches, the model, the trainer *)

(** Modelled from the spec: the batch types are declared in
    [reagent.types].  A ranking-style batch carries the optional
    slate-level reward; any other batch carries the optional scalar reward.
    [state] stands for the features the model reads. *)
Inductive Batch : Type :=
| PreprocessedRankingInput (slate_reward : option Tensor) (state : Tensor)
| OtherInput (reward : option Tensor) (state : Tensor).

(** A [torch.nn.Module] object: its own mode flag, and its parameters as
    [parameters()] yields them, those of the modules it contains
    included. *)
Record Module_ : Type := mkModule {
  training : bool;
  parameters : Tensor
}.

(** A reference to a module object. *)
Definition loc : Type := nat.

(** What the evaluator reads from its [RewardNetTrainer]. *)
Record RewardNetTrainer : Type := mkTrainer {
  reward_net : loc;
  loss_type : string;
  loss_fn : Tensor -> Tensor -> outcome Tensor
}.

(** *** The evaluator object and the world it runs in *)

Record RewardNetEvaluator : Type := mkEvaluator {
  trainer : RewardNetTrainer;
  loss : list Tensor;
  rewards : list Tensor;
  pred_rewards : list Tensor;
  best_model : option loc;
  best_model_loss : float
}.

(** The evaluator object [self], the module objects by reference with the
    next free reference, and the records written to the logger.
    [submodules w l] holds the mode flags of the modules that the module
    object at [l] contains (its children, their children, and so on), in
    the order of [modules()], the object itself left out. *)
Record world : Type := mkWorld {
  self : RewardNetEvaluator;
  modules : loc -> Module_;
  submodules : loc -> list bool;
  next : loc;
  logged : list message
}.

Definition __init__ (trainer : RewardNetTrainer) : RewardNetEvaluator :=
  mkEvaluator trainer [] [] [] None 1e9.

Definition update {A} (m : loc -> A) (l : loc) (v : A) : loc -> A :=
  fun l' => if Nat.eqb l' l then v else m l'.

(** [module.train(mode)] sets the flag of the module and then calls
    [train(mode)] on each of its children, so that every module it contains
    ends in [mode]; [module.eval()] is [module.train(False)]. *)
Definition train (l : loc) (mode : bool) (w : world) : world :=
  mkWorld (self w)
          (update (modules w) l (mkModule mode (parameters (modules w l))))
          (update (submodules w) l (map (fun _ => mode) (submodules w l)))
          (next w) (logged w).

(** [copy.deepcopy(module)] when it returns: a new object with the same
    contents, the modules it contains copied with it. *)
Definition deepcopy (l : loc) (w : world) : loc * world :=
  (next w,
   mkWorld (self w) (update (modules w) (next w) (modules w l))
           (update (submodules w) (next w) (submodules w l))
           (S (next w)) (logged w)).

Definition set_self (e : RewardNetEvaluator) (w : world) : world :=
  mkWorld e (modules w) (submodules w) (next w) (logged w).

Definition info (msg : message) (w : world) : world :=
  mkWorld (self w) (modules w) (submodules w) (next w) (logged w ++ [msg]).

(** The three values returned by [evaluate_post_training]. *)
Record eval_res : Type := mkRes {
  res_loss : float;
  res_rewards : Tensor;
  res_pred_rewards : Tensor
}.

Section Evaluate.

(** The forward pass of the model: the predicted reward, or an exception. *)
Variable forward : Module_ -> Batch -> outcome Tensor.

(** *** [evaluate] (lines 29-47)

    The decorator [torch.no_grad()] switches gradient tracking off; it has
    no counterpart here. *)

Definition evaluate (eval_tdp : Batch) (w : world) : result unit * world :=
  let reward_net := reward_net (trainer (self w)) in
  let reward_net_prev_mode := training (modules w reward_net) in
  let w := train reward_net false w in
  let reward :=
    match eval_tdp with
    | PreprocessedRankingInput slate_reward _ => slate_reward
    | OtherInput reward _ => reward
    end in
  match reward with
  | None => (Err (AssertionError []), w)
  | Some reward =>
    match forward (modules w reward_net) eval_tdp with
    | Raises tag => (Err (Raised tag), w)
    | Returns pred_reward =>
      match loss_fn (trainer (self w)) pred_reward reward with
      | Raises tag => (Err (Raised tag), w)
      | Returns loss_ =>
        let e := self w in
        let w :=
          set_self (mkEvaluator (trainer e)
                      (loss e ++ [loss_])
                      (rewards e ++ [reward])
                      (pred_rewards e ++ [pred_reward])
                      (best_model e) (best_model_loss e)) w in
        let w := train reward_net reward_net_prev_mode w in
        (Ok tt, w)
      end
    end
  end.

(** *** [evaluate_post_training] (lines 49-66)

    [copy.deepcopy] on line 64 either returns or raises (a member of the
    model that cannot be copied, memory).  [evaluate_post_training] is the
    call in which it returns, if it is reached at all;
    [evaluate_post_training_copy_raises] is the call in which it raises. *)

Definition evaluate_post_training (w : world) : result eval_res * world :=
  match np_mean (loss (self w)) with
  | Err e => (Err e, w)
  | Ok mean_loss =>
    let w :=
      info [Lit "Evaluation "; FmtRepr (loss_type (trainer (self w)));
            Lit "="; FmtFloat mean_loss]%string w in
    match torch_cat (rewards (self w)) with
    | Err e => (Err e, w)
    | Ok all_rewards =>
      match torch_cat (pred_rewards (self w)) with
      | Err e => (Err e, w)
      | Ok all_pred_rewards =>
        let eval_res := mkRes mean_loss all_rewards all_pred_rewards in
        let e := self w in
        let w :=
          set_self (mkEvaluator (trainer e) [] [] []
                      (best_model e) (best_model_loss e)) w in
        let w :=
          if mean_loss <? best_model_loss (self w) then
            let e := self w in
            let '(copy, w) := deepcopy (reward_net (trainer e)) w in
            set_self (mkEvaluator (trainer e) (loss e) (rewards e)
                        (pred_rewards e) (Some copy) mean_loss) w
          else w in
        (Ok eval_res, w)
      end
    end
  end.

(** Line 63 has stored the new best loss when line 64 raises [tag]; the
    accumulators are empty by then and [best_model] is still the old
    one.  When the mean is not below the best loss no copy is taken. *)
Definition evaluate_post_training_copy_raises
    (tag : string) (w : world) : result eval_res * world :=
  match np_mean (loss (self w)) with
  | Err e => (Err e, w)
  | Ok mean_loss =>
    let w :=
      info [Lit "Evaluation "; FmtRepr (loss_type (trainer (self w)));
            Lit "="; FmtFloat mean_loss]%string w in
    match torch_cat (rewards (self w)) with
    | Err e => (Err e, w)
    | Ok all_rewards =>
      match torch_cat (pred_rewards (self w)) with
      | Err e => (Err e, w)
      | Ok all_pred_rewards =>
        let eval_res := mkRes mean_loss all_rewards all_pred_rewards in
        let e := self w in
        let w :=
          set_self (mkEvaluator (trainer e) [] [] []
                      (best_model e) (best_model_loss e)) w in
        if mean_loss <? best_model_loss (self w) then
          let e := self w in
          let w :=
            set_self (mkEvaluator (trainer e) (loss e) (rewards e)
                        (pred_rewards e) (best_model e) mean_loss) w in
          (Err (Raised tag), w)
        else (Ok eval_res, w)
      end
    end
  end.

(** *** Module objects *)

Lemma update_same {A} (m : loc -> A) l v : update m l v l = v.
Proof. unfold update. now rewrite Nat.eqb_refl. Qed.

Lemma update_other {A} (m : loc -> A) l v l' :
  l' <> l -> update m l v l' = m l'.
Proof.
  unfold update. intros H. now apply Nat.eqb_neq in H as ->.
Qed.

Lemma update_self {A} (m : loc -> A) l l' : update m l (m l') l' = m l'.
Proof.
  unfold update. now destruct (Nat.eqb l' l).
Qed.

Lemma map_const_idem {A} (a b : A) (l : list A) :
  map (fun _ => a) (map (fun _ => b) l) = map (fun _ => a) l.
Proof. now rewrite map_map. Qed.

Lemma map_const_id (a : bool) (l : list bool) :
  map (fun _ => a) l = l <-> Forall (fun b => b = a) l.
Proof.
  induction l as [|b l IH]; simpl.
  - split; [constructor | reflexivity].
  - split.
    + intros E. injection E as Hb Hl.
      constructor; [now symmetry | now apply IH].
    + intros H. inversion H as [|b' l' Hb Hl]; subst. f_equal.
      now apply IH.
Qed.

(** *** The mode flag (C3) *)

(** C3.  What [evaluate] does with the mode flags.  A call that returns
    has restored the model's own flag; a call that raises (no reward in the
    batch, or the forward pass or the loss function raises) leaves the
    model in evaluation mode: line 47 is not reached.  The modules that the
    model contains end in the mode the model itself ends in, whatever
    their own mode was before.  The parameters are not touched. *)
Theorem evaluate_mode_flag (eval_tdp : Batch) (w : world) :
  let l := reward_net (trainer (self w)) in
  let r := fst (evaluate eval_tdp w) in
  let w' := snd (evaluate eval_tdp w) in
  let mode := if is_ok r then training (modules w l) else false in
  training (modules w' l) = mode
  /\ submodules w' l = map (fun _ => mode) (submodules w l)
  /\ parameters (modules w' l) = parameters (modules w l).
Proof.
  unfold evaluate.
  destruct eval_tdp as [[reward|] st | [reward|] st]; simpl;
    rewrite ?update_same;
    repeat match goal with
           | |- context [match ?o with Returns _ => _ | Raises _ => _ end] =>
               destruct o; simpl
           end;
    rewrite ?update_same, ?map_const_idem; simpl;
    repeat split; reflexivity.
Qed.

(** *** The reward signal (C9) *)

(** C9.  [evaluate] reads the slate-level reward of a ranking-style batch
    and the scalar reward of any other batch.  It fails with the bare
    [AssertionError] of line 39 exactly when that reward is absent; when it
    succeeds, the reward read is the one handed to the loss function and
    appended to [rewards]. *)
Theorem evaluate_reward_signal
    (w : world) (eval_tdp : Batch) (field : option Tensor) (st : Tensor) :
  eval_tdp = PreprocessedRankingInput field st
  \/ eval_tdp = OtherInput field st ->
  let net := reward_net (trainer (self w)) in
  let model := mkModule false (parameters (modules w net)) in
  let r := fst (evaluate eval_tdp w) in
  let w' := snd (evaluate eval_tdp w) in
  (r = Err (AssertionError []) <-> field = None)
  /\ (forall reward,
       field = Some reward -> r = Ok tt ->
       exists pred_reward loss_,
         forward model eval_tdp = Returns pred_reward
         /\ loss_fn (trainer (self w)) pred_reward reward = Returns loss_
         /\ loss (self w') = loss (self w) ++ [loss_]
         /\ rewards (self w') = rewards (self w) ++ [reward]
         /\ pred_rewards (self w') = pred_rewards (self w) ++ [pred_reward]).
Proof.
  intros Hb net model. unfold evaluate. fold net.
  assert (modules (train net false w) net = model) as Hm
    by (unfold train; simpl; now rewrite update_same).
  destruct Hb as [-> | ->]; rewrite Hm;
    (destruct field as [reward|]; simpl;
     [ destruct (forward model _) as [pred|tag]; simpl;
       [ destruct (loss_fn _ pred reward) as [l0|tag] eqn:Hl; simpl |]
     | ]);
    (split; [split; intros; congruence|]);
    intros reward0 E; try discriminate; inversion E; subst;
    intros Hr; try discriminate;
    exists pred, l0; repeat split; assumption.
Qed.

(** *** The best model (C4) *)

(** References in use are allocated, and the best loss is a number. *)
Definition wf (w : world) : Prop :=
  reward_net (trainer (self w)) < next w
  /\ (forall l, best_model (self w) = Some l -> l < next w)
  /\ is_nan (best_model_loss (self w)) = false.

(** One step of the life of an evaluator: a call of either method, with
    any outcome, or the model's owner changing the model or the modes of
    the modules it contains. *)
Inductive step : world -> world -> Prop :=
| step_evaluate eval_tdp w :
    step w (snd (evaluate eval_tdp w))
| step_evaluate_post_training w :
    step w (snd (evaluate_post_training w))
| step_copy_raises tag w :
    step w (snd (evaluate_post_training_copy_raises tag w))
| step_model_changed m flags w :
    step w (mkWorld (self w)
                    (update (modules w) (reward_net (trainer (self w))) m)
                    (update (submodules w) (reward_net (trainer (self w)))
                            flags)
                    (next w) (logged w)).

Inductive steps : world -> world -> Prop :=
| steps_nil w : steps w w
| steps_cons w1 w2 w3 : step w1 w2 -> steps w2 w3 -> steps w1 w3.

Lemma evaluate_keeps_best eval_tdp w :
  let w' := snd (evaluate eval_tdp w) in
  trainer (self w') = trainer (self w)
  /\ best_model (self w') = best_model (self w)
  /\ best_model_loss (self w') = best_model_loss (self w)
  /\ next w' = next w.
Proof.
  unfold evaluate.
  destruct eval_tdp as [[reward|] st | [reward|] st]; simpl;
    repeat match goal with
           | |- context [match ?o with Returns _ => _ | Raises _ => _ end] =>
               destruct o; simpl
           end;
    repeat split; reflexivity.
Qed.

(** What a call of [evaluate_post_training] that returns has done. *)
Lemma evaluate_post_training_ok w res w' :
  evaluate_post_training w = (Ok res, w') ->
  let e := self w in
  let improved := res_loss res <? best_model_loss e in
  np_mean (loss e) = Ok (res_loss res)
  /\ torch_cat (rewards e) = Ok (res_rewards res)
  /\ torch_cat (pred_rewards e) = Ok (res_pred_rewards res)
  /\ self w' =
       mkEvaluator (trainer e) [] [] []
         (if improved then Some (next w) else best_model e)
         (if improved then res_loss res else best_model_loss e)
  /\ modules w' =
       (if improved
        then update (modules w) (next w) (modules w (reward_net (trainer e)))
        else modules w)
  /\ next w' = (if improved then S (next w) else next w)
  /\ submodules w' =
       (if improved
        then update (submodules w) (next w)
               (submodules w (reward_net (trainer e)))
        else submodules w)
  /\ exists msg, logged w' = logged w ++ [msg].
Proof.
  unfold evaluate_post_training.
  destruct (np_mean (loss (self w))) as [mean_loss|]; [|discriminate].
  simpl.
  destruct (torch_cat (rewards (self w))) as [rs|]; [|discriminate].
  destruct (torch_cat (pred_rewards (self w))) as [ps|]; [|discriminate].
  intros H; inversion H; subst; clear H. simpl.
  destruct (mean_loss <? best_model_loss (self w)); simpl;
    repeat split; try reflexivity; eexists; reflexivity.
Qed.

(** A call of [evaluate_post_training] that raises has at most logged. *)
Lemma evaluate_post_training_err w e w' :
  evaluate_post_training w = (Err e, w') ->
  self w' = self w /\ modules w' = modules w /\ next w' = next w
  /\ submodules w' = submodules w.
Proof.
  unfold evaluate_post_training.
  destruct (np_mean (loss (self w))) as [mean_loss|].
  - simpl.
    destruct (torch_cat (rewards (self w))) as [rs|].
    + destruct (torch_cat (pred_rewards (self w))) as [ps|].
      * discriminate.
      * intros H; inversion H; subst. now repeat split.
    + intros H; inversion H; subst. now repeat split.
  - intros H; inversion H; subst. now repeat split.
Qed.

(** A call in which the copy raises: either the copy was reached, or the
    call is the one in which it returns. *)
Lemma copy_raises_inv tag w :
  (exists res w0,
     evaluate_post_training w = (Ok res, w0)
     /\ (res_loss res <? best_model_loss (self w)) = true
     /\ evaluate_post_training_copy_raises tag w
        = (Err (Raised tag),
           mkWorld (mkEvaluator (trainer (self w)) [] [] []
                      (best_model (self w)) (res_loss res))
                   (modules w) (submodules w) (next w) (logged w0)))
  \/ ((forall res w0,
         evaluate_post_training w = (Ok res, w0) ->
         (res_loss res <? best_model_loss (self w)) = false)
      /\ evaluate_post_training_copy_raises tag w
         = evaluate_post_training w).
Proof.
  unfold evaluate_post_training_copy_raises, evaluate_post_training.
  destruct (np_mean (loss (self w))) as [mean_loss|];
    [|right; split; [discriminate | reflexivity]].
  simpl.
  destruct (torch_cat (rewards (self w))) as [rs|];
    [|right; split; [discriminate | reflexivity]].
  destruct (torch_cat (pred_rewards (self w))) as [ps|];
    [|right; split; [discriminate | reflexivity]].
  destruct (mean_loss <? best_model_loss (self w)) eqn:Hlt; simpl.
  - left. eexists; eexists. split; [reflexivity|]. split; [exact Hlt|].
    reflexivity.
  - right. split; [|reflexivity].
    intros res w0 H. inversion H; subst. exact Hlt.
Qed.

Lemma post_training_best w :
  wf w ->
  wf (snd (evaluate_post_training w))
  /\ (best_model_loss (self (snd (evaluate_post_training w)))
      <=? best_model_loss (self w)) = true.
Proof.
  intros (Hnet & Hbest & Hnan).
  destruct (evaluate_post_training w) as [[res|e] w'] eqn:E; simpl.
  - apply evaluate_post_training_ok in E as (_ & _ & _ & Hs & _ & Hn & _).
    unfold wf. rewrite Hs, Hn. simpl.
    destruct (res_loss res <? best_model_loss (self w)) eqn:Hlt.
    + repeat split; try lia.
      * intros l Hl. inversion Hl. lia.
      * exact (FloatFacts.ltb_not_nan _ _ Hlt).
      * exact (FloatFacts.ltb_leb _ _ Hlt).
    + auto using FloatFacts.leb_refl.
  - apply evaluate_post_training_err in E as (Hs & _ & Hn & _).
    unfold wf. rewrite Hs, Hn. auto using FloatFacts.leb_refl.
Qed.

Lemma step_best w w' :
  step w w' -> wf w ->
  wf w'
  /\ (best_model_loss (self w') <=? best_model_loss (self w)) = true.
Proof.
  intros Hstep Hwf. pose proof Hwf as (Hnet & Hbest & Hnan).
  destruct Hstep.
  - destruct (evaluate_keeps_best eval_tdp w) as (Ht & Hb & Hl & Hn).
    unfold wf. rewrite Ht, Hb, Hl, Hn.
    auto using FloatFacts.leb_refl.
  - now apply post_training_best.
  - destruct (copy_raises_inv tag w)
      as [(res & w0 & _ & Hlt & ->) | (_ & ->)];
      [|now apply post_training_best].
    unfold wf; simpl. repeat split; try assumption.
    + exact (FloatFacts.ltb_not_nan _ _ Hlt).
    + exact (FloatFacts.ltb_leb _ _ Hlt).
  - unfold wf; simpl. auto using FloatFacts.leb_refl.
Qed.

Lemma steps_best w w' :
  steps w w' -> wf w ->
  wf w'
  /\ (best_model_loss (self w') <=? best_model_loss (self w)) = true.
Proof.
  induction 1 as [w | w1 w2 w3 H12 H23 IH]; intros Hwf.
  - split; [assumption|]. apply FloatFacts.leb_refl, Hwf.
  - destruct (step_best _ _ H12 Hwf) as [Hwf2 H2].
    destruct (IH Hwf2) as [Hwf3 H3].
    split; [assumption|]. exact (FloatFacts.leb_trans _ _ _ H3 H2).
Qed.

(** The reward read on lines 35-38. *)
Definition signal (eval_tdp : Batch) : option Tensor :=
  match eval_tdp with
  | PreprocessedRankingInput slate_reward _ => slate_reward
  | OtherInput reward _ => reward
  end.

(** The model as the forward pass sees it: in evaluation mode. *)
Definition eval_model (w : world) : Module_ :=
  mkModule false (parameters (modules w (reward_net (trainer (self w))))).

(** The contained modules after [train(mode)] on the model. *)
Definition set_modes (mode : bool) (w : world) : loc -> list bool :=
  let net := reward_net (trainer (self w)) in
  update (submodules w) net (map (fun _ => mode) (submodules w net)).

Lemma module_eta (m : Module_) : mkModule (training m) (parameters m) = m.
Proof. now destruct m. Qed.

(** What a call of [evaluate] that returns has done. *)
Lemma evaluate_ok eval_tdp w w' :
  evaluate eval_tdp w = (Ok tt, w') ->
  exists reward pred_reward loss_,
    signal eval_tdp = Some reward
    /\ forward (eval_model w) eval_tdp = Returns pred_reward
    /\ loss_fn (trainer (self w)) pred_reward reward = Returns loss_
    /\ self w' =
         mkEvaluator (trainer (self w)) (loss (self w) ++ [loss_])
           (rewards (self w) ++ [reward])
           (pred_rewards (self w) ++ [pred_reward])
           (best_model (self w)) (best_model_loss (self w))
    /\ (forall l, modules w' l = modules w l)
    /\ next w' = next w /\ logged w' = logged w
    /\ (forall l,
         submodules w' l
         = set_modes (training (modules w (reward_net (trainer (self w)))))
             w l).
Proof.
  unfold evaluate, eval_model, signal, set_modes.
  set (net := reward_net (trainer (self w))).
  assert (modules (train net false w) net
          = mkModule false (parameters (modules w net))) as Hm
    by (unfold train; simpl; now rewrite update_same).
  rewrite Hm.
  destruct eval_tdp as [[reward|] st | [reward|] st]; simpl;
    try discriminate;
    (destruct (forward _ _) as [pred|tag]; simpl; [|discriminate];
     destruct (loss_fn _ pred reward) as [l0|tag] eqn:Hl; simpl;
       [|discriminate];
     intros H; inversion H; subst w'; clear H;
     exists reward, pred, l0; simpl; repeat split; try assumption;
     intros l;
     (destruct (Nat.eq_dec l net) as [->|Hne];
      [ rewrite !update_same; simpl;
        first [apply module_eta | apply map_const_idem]
      | now rewrite !update_other by assumption ])).
Qed.

(** What a call of [evaluate] that raises has done. *)
Lemma evaluate_err eval_tdp w e w' :
  evaluate eval_tdp w = (Err e, w') ->
  w' = train (reward_net (trainer (self w))) false w
  /\ (e = AssertionError [] /\ signal eval_tdp = None
      \/ exists tag, e = Raised tag).
Proof.
  unfold evaluate, signal.
  destruct eval_tdp as [[reward|] st | [reward|] st]; simpl;
    try (intros H; inversion H; subst; split; auto; fail);
    (destruct (forward _ _) as [pred|tag]; simpl;
     [ destruct (loss_fn _ pred reward) as [l0|tag]; simpl |]);
    intros H; inversion H; subst; split; eauto.
Qed.

Lemma evaluate_frame eval_tdp w l :
  l <> reward_net (trainer (self w)) ->
  modules (snd (evaluate eval_tdp w)) l = modules w l.
Proof.
  intros Hl. destruct (evaluate eval_tdp w) as [[[]|e] w'] eqn:E; simpl.
  - now apply evaluate_ok in E as (? & ? & ? & _ & _ & _ & _ & Hm & _).
  - apply evaluate_err in E as (-> & _). unfold train; simpl.
    now apply update_other.
Qed.

Lemma post_training_frame w :
  trainer (self (snd (evaluate_post_training w))) = trainer (self w)
  /\ next w <= next (snd (evaluate_post_training w))
  /\ (forall l, l < next w ->
       modules (snd (evaluate_post_training w)) l = modules w l).
Proof.
  destruct (evaluate_post_training w) as [[res|e] w'] eqn:E; simpl.
  - apply evaluate_post_training_ok in E as (_ & _ & _ & Hs & Hm & Hn & _).
    rewrite Hs, Hm, Hn. simpl.
    destruct (res_loss res <? best_model_loss (self w));
      repeat split; auto.
    intros l Hl. apply update_other. lia.
  - apply evaluate_post_training_err in E as (Hs & Hm & Hn & _).
    rewrite Hs, Hm, Hn. repeat split; auto.
Qed.

(** No step touches a module object other than the model itself: a
    snapshot taken by [copy.deepcopy] keeps its contents whatever happens
    to the model afterwards. *)
Lemma step_frame w w' :
  step w w' -> wf w ->
  trainer (self w') = trainer (self w)
  /\ next w <= next w'
  /\ (forall l, l < next w -> l <> reward_net (trainer (self w)) ->
       modules w' l = modules w l).
Proof.
  intros Hstep (Hnet & _). destruct Hstep.
  - destruct (evaluate_keeps_best eval_tdp w) as (Ht & _ & _ & Hn).
    rewrite Ht, Hn. repeat split; auto.
    intros l _ Hl. now apply evaluate_frame.
  - destruct (post_training_frame w) as (Ht & Hn & Hm). auto.
  - destruct (copy_raises_inv tag w)
      as [(res & w0 & _ & _ & ->) | (_ & ->)]; simpl.
    + repeat split; auto.
    + destruct (post_training_frame w) as (Ht & Hn & Hm). auto.
  - simpl. repeat split; auto. intros l _ Hl. now apply update_other.
Qed.

Lemma snapshot_stable w w' l :
  steps w w' -> wf w ->
  l < next w -> l <> reward_net (trainer (self w)) ->
  modules w' l = modules w l.
Proof.
  induction 1 as [w | w1 w2 w3 H12 H23 IH]; intros Hwf Hl Hnet.
  - reflexivity.
  - destruct (step_frame _ _ H12 Hwf) as (Ht & Hn & Hf).
    destruct (step_best _ _ H12 Hwf) as [Hwf2 _].
    rewrite IH; auto; try lia. now rewrite Ht.
Qed.

(** With a mean and two non-empty reward lists, the call returns. *)
Lemma evaluate_post_training_returns w mean_loss :
  np_mean (loss (self w)) = Ok mean_loss ->
  rewards (self w) <> [] -> pred_rewards (self w) <> [] ->
  exists res w',
    evaluate_post_training w = (Ok res, w') /\ res_loss res = mean_loss.
Proof.
  intros Hm Hr Hp. unfold evaluate_post_training. rewrite Hm. simpl.
  destruct (rewards (self w)) as [|r rs]; [congruence|].
  destruct (pred_rewards (self w)) as [|p ps]; [congruence|].
  simpl. eexists; eexists; split; reflexivity.
Qed.

(** C4.  Over any sequence of calls the best loss never increases, and from
    a new evaluator it never exceeds the sentinel [1e9].  A call of
    [evaluate_post_training] that returns replaces [best_model] exactly when
    the mean loss is strictly below the best loss so far, and then by a new
    object with the contents of the current model.  Losses [0.4] and [0.6]
    on a new evaluator give the best loss [0.5]; a following mean loss of
    [0.9] changes neither the best model nor the best loss. *)
Theorem best_model_tracking :
  (forall w w',
     wf w -> steps w w' ->
     (best_model_loss (self w') <=? best_model_loss (self w)) = true)
  /\ (forall t w w',
       self w = __init__ t -> reward_net t < next w -> steps w w' ->
       (best_model_loss (self w') <=? 1e9) = true)
  /\ (forall w res w',
       wf w -> evaluate_post_training w = (Ok res, w') ->
       let net := reward_net (trainer (self w)) in
       let improved := res_loss res <? best_model_loss (self w) in
       (best_model (self w') <> best_model (self w) <-> improved = true)
       /\ (improved = true ->
           best_model (self w') = Some (next w)
           /\ next w <> net
           /\ modules w' (next w) = modules w net
           /\ modules w' net = modules w net
           /\ best_model_loss (self w') = res_loss res)
       /\ (improved = false ->
           best_model_loss (self w') = best_model_loss (self w)
           /\ modules w' = modules w))
  /\ (forall w,
       loss (self w) = [[0.4]; [0.6]] ->
       rewards (self w) <> [] -> pred_rewards (self w) <> [] ->
       best_model_loss (self w) = 1e9 ->
       exists res w',
         evaluate_post_training w = (Ok res, w')
         /\ res_loss res = 0.5
         /\ best_model (self w') = Some (next w)
         /\ best_model_loss (self w') = 0.5)
  /\ (forall w,
       loss (self w) = [[0.9]] ->
       rewards (self w) <> [] -> pred_rewards (self w) <> [] ->
       best_model_loss (self w) = 0.5 ->
       exists res w',
         evaluate_post_training w = (Ok res, w')
         /\ res_loss res = 0.9
         /\ best_model (self w') = best_model (self w)
         /\ best_model_loss (self w') = 0.5).
Proof.
  split; [|split; [|split; [|split]]].
  - intros w w' Hwf Hsteps. now apply steps_best.
  - intros t w w' Hinit Hnet Hsteps.
    assert (wf w) as Hwf.
    { unfold wf. rewrite Hinit. simpl. repeat split; auto. discriminate. }
    apply (steps_best _ _ Hsteps) in Hwf as [_ H].
    now rewrite Hinit in H.
  - intros w res w' (Hnet & Hbest & _) E net improved.
    apply evaluate_post_training_ok in E as (_ & _ & _ & Hs & Hm & _).
    fold improved in Hs, Hm. rewrite Hs, Hm. simpl.
    destruct improved; simpl; (split; [split|split]);
      try discriminate; try congruence.
    + intros _ E. symmetry in E. apply Hbest in E. lia.
    + intros _. assert (next w <> net) as Hfresh by (unfold net; lia).
      repeat split; auto using update_same.
      apply update_other. congruence.
    + auto.
  - intros w Hl Hr Hp Hb.
    destruct (evaluate_post_training_returns w 0.5) as (res & w' & E & Hres);
      auto.
    { now rewrite Hl. }
    exists res, w'. pose proof E as E'.
    apply evaluate_post_training_ok in E' as (_ & _ & _ & Hs & _).
    rewrite Hs, Hres, Hb. simpl. repeat split; auto.
  - intros w Hl Hr Hp Hb.
    destruct (evaluate_post_training_returns w 0.9) as (res & w' & E & Hres);
      auto.
    { now rewrite Hl. }
    exists res, w'. pose proof E as E'.
    apply evaluate_post_training_ok in E' as (_ & _ & _ & Hs & _).
    rewrite Hs, Hres, Hb. simpl. repeat split; auto.
Qed.

(** *** Draining the accumulators (C5) *)

(** C5, as the code has it.  A call of [evaluate_post_training] that
    returns leaves the three accumulators empty.  With nothing accumulated
    the call does fail, but not at the mean: the mean of the empty loss list
    is NaN, which is logged, and the exception is the one [torch.cat] raises
    on the empty [rewards] list; the evaluator and the model objects are
    left as they were. *)
Theorem evaluate_post_training_drains :
  (forall w res w',
     evaluate_post_training w = (Ok res, w') ->
     loss (self w') = [] /\ rewards (self w') = []
     /\ pred_rewards (self w') = [])
  /\ (forall w,
       loss (self w) = [] -> rewards (self w) = [] ->
       np_mean (loss (self w)) = Ok nan
       /\ evaluate_post_training w
          = (Err torch_cat_empty,
             info [Lit "Evaluation "; FmtRepr (loss_type (trainer (self w)));
                   Lit "="; FmtFloat nan]%string w)).
Proof.
  split.
  - intros w res w' E.
    apply evaluate_post_training_ok in E as (_ & _ & _ & -> & _).
    now repeat split.
  - intros w Hl Hr. unfold evaluate_post_training. rewrite Hl. simpl.
    now rewrite Hr.
Qed.

(** *** Further properties of the evaluator *)

(** X15.  A call of [evaluate] that raises has recorded nothing and logged
    nothing, and has created no object; but it leaves the model, and every
    module the model contains, in evaluation mode, with the parameters as
    they were.  What it raises is the assertion of line 39, when the batch
    has no reward, or what the forward pass or the loss function raised. *)
Theorem evaluate_failure_records_nothing
    (eval_tdp : Batch) (w w' : world) (e : exn) :
  evaluate eval_tdp w = (Err e, w') ->
  let net := reward_net (trainer (self w)) in
  self w' = self w /\ logged w' = logged w /\ next w' = next w
  /\ modules w' net = mkModule false (parameters (modules w net))
  /\ submodules w' net = map (fun _ => false) (submodules w net)
  /\ (e = AssertionError [] /\ signal eval_tdp = None
      \/ exists tag, e = Raised tag).
Proof.
  intros H net. apply evaluate_err in H as (-> & He). fold net.
  unfold train; simpl. rewrite !update_same.
  repeat split; assumption.
Qed.

(** The three accumulators hold one entry per recorded batch. *)
Definition aligned (w : world) : Prop :=
  List.length (loss (self w)) = List.length (rewards (self w))
  /\ List.length (rewards (self w)) = List.length (pred_rewards (self w)).

Lemma post_training_aligned w :
  aligned w -> aligned (snd (evaluate_post_training w)).
Proof.
  intros Ha. unfold aligned.
  destruct (evaluate_post_training w) as [[res|e] w'] eqn:E; simpl.
  - apply evaluate_post_training_ok in E as (_ & _ & _ & -> & _).
    now split.
  - apply evaluate_post_training_err in E as (-> & _). exact Ha.
Qed.

Lemma step_aligned w w' : step w w' -> aligned w -> aligned w'.
Proof.
  intros Hstep Ha. pose proof Ha as [H1 H2]. destruct Hstep.
  - unfold aligned.
    destruct (evaluate eval_tdp w) as [[[]|e] w'] eqn:E; simpl.
    + apply evaluate_ok in E as (r & p & l & _ & _ & _ & -> & _). simpl.
      rewrite !length_app. simpl. lia.
    + apply evaluate_err in E as (-> & _). now split.
  - now apply post_training_aligned.
  - destruct (copy_raises_inv tag w)
      as [(res & w0 & _ & _ & ->) | (_ & ->)];
      [now split | now apply post_training_aligned].
  - now split.
Qed.

Lemma steps_aligned w w' : steps w w' -> aligned w -> aligned w'.
Proof.
  induction 1 as [w | w1 w2 w3 H12 H23 IH]; intros Ha; [assumption|].
  apply IH. exact (step_aligned _ _ H12 Ha).
Qed.

(** X16.  The three accumulators grow and are emptied together: they have
    equal length in every state an evaluator can reach, also after a call
    in which the copy raised.  Hence, when the mean of the losses can be
    taken, a call of [evaluate_post_training] in which the copy returns
    (or is not reached) returns exactly when some batch is recorded; a call
    in which the copy would raise returns exactly when some batch is
    recorded and the mean is not below the best loss. *)
Theorem accumulators_stay_aligned :
  (forall w w', aligned w -> steps w w' -> aligned w')
  /\ (forall t w w', self w = __init__ t -> steps w w' -> aligned w')
  /\ (forall w m,
       aligned w -> np_mean (loss (self w)) = Ok m ->
       (is_ok (fst (evaluate_post_training w)) = true
        <-> loss (self w) <> [])
       /\ (forall tag,
            is_ok (fst (evaluate_post_training_copy_raises tag w)) = true
            <-> loss (self w) <> []
                /\ (m <? best_model_loss (self w)) = false)).
Proof.
  split; [|split].
  - intros w w' Ha Hs. exact (steps_aligned _ _ Hs Ha).
  - intros t w w' Hinit Hs. apply (steps_aligned _ _ Hs).
    unfold aligned. rewrite Hinit. now split.
  - intros w m [H1 H2] Hm.
    unfold evaluate_post_training_copy_raises, evaluate_post_training.
    rewrite Hm. simpl.
    destruct (loss (self w)) as [|l ls], (rewards (self w)) as [|r rs],
             (pred_rewards (self w)) as [|p ps];
      simpl in *; try discriminate.
    + split; [split; congruence|].
      intros tag. split; [discriminate | intros [H _]; congruence].
    + split; [split; congruence|].
      intros tag. destruct (m <? best_model_loss (self w)); simpl;
        split; try discriminate; try (intros [_ H]; discriminate);
        intros _; split; congruence.
Qed.

(** X17.  Where a call of [evaluate_post_training] can raise, and what it
    leaves.  At [np.mean] nothing has been done.  At [torch.cat], on an
    empty list, the mean has been logged and nothing else has changed: the
    accumulated batches, the best model and the best loss are kept.  At
    [copy.deepcopy], which is reached only with a mean below the best
    loss, the call has logged, emptied the accumulators and stored the
    mean as the best loss, while the best model is still the old one. *)
Theorem evaluate_post_training_failure (w w' : world) (e : exn) :
  (evaluate_post_training w = (Err e, w') ->
   np_mean (loss (self w)) = Err e /\ w' = w
   \/ exists m,
        np_mean (loss (self w)) = Ok m
        /\ e = torch_cat_empty
        /\ (rewards (self w) = [] \/ pred_rewards (self w) = [])
        /\ w' = info [Lit "Evaluation ";
                      FmtRepr (loss_type (trainer (self w)));
                      Lit "="; FmtFloat m]%string w)
  /\ (forall tag,
       evaluate_post_training_copy_raises tag w = (Err e, w') ->
       evaluate_post_training w = (Err e, w')
       \/ exists res w0,
            evaluate_post_training w = (Ok res, w0)
            /\ (res_loss res <? best_model_loss (self w)) = true
            /\ e = Raised tag
            /\ w' = mkWorld
                      (mkEvaluator (trainer (self w)) [] [] []
                         (best_model (self w)) (res_loss res))
                      (modules w) (submodules w) (next w) (logged w0)).
Proof.
  split.
  - unfold evaluate_post_training.
    destruct (np_mean (loss (self w))) as [m|e0] eqn:Hm;
      [|intros H; inversion H; subst; now left].
    simpl. intros H. right. exists m. split; [reflexivity|].
    unfold torch_cat in H.
    destruct (rewards (self w)) as [|r rs].
    + inversion H; subst. auto.
    + destruct (pred_rewards (self w)) as [|p ps].
      * inversion H; subst. auto.
      * simpl in H. destruct (m <? best_model_loss (self w)); discriminate.
  - intros tag H.
    destruct (copy_raises_inv tag w)
      as [(res & w0 & E & Hlt & E') | (_ & E')]; rewrite E' in H.
    + inversion H; subst. right. exists res, w0. auto.
    + now left.
Qed.


(** The best model is an object of its own, not the model. *)
Definition unshared (w : world) : Prop :=
  best_model (self w) <> Some (reward_net (trainer (self w))).

Lemma post_training_unshared w :
  wf w -> unshared w -> unshared (snd (evaluate_post_training w)).
Proof.
  intros (Hnet & _) Hu. unfold unshared in *.
  destruct (evaluate_post_training w) as [[res|e] w'] eqn:E; simpl.
  - apply evaluate_post_training_ok in E as (_ & _ & _ & -> & _). simpl.
    destruct (res_loss res <? best_model_loss (self w)); [|assumption].
    intros E. inversion E. lia.
  - apply evaluate_post_training_err in E as (-> & _). assumption.
Qed.

Lemma step_unshared w w' : step w w' -> wf w -> unshared w -> unshared w'.
Proof.
  intros Hstep Hwf Hu. destruct Hstep.
  - unfold unshared in *.
    destruct (evaluate_keeps_best eval_tdp w) as (-> & -> & _). assumption.
  - now apply post_training_unshared.
  - destruct (copy_raises_inv tag w)
      as [(res & w0 & _ & _ & ->) | (_ & ->)];
      [exact Hu | now apply post_training_unshared].
  - assumption.
Qed.

Lemma steps_unshared w w' :
  steps w w' -> wf w -> unshared w -> wf w' /\ unshared w'.
Proof.
  induction 1 as [w | w1 w2 w3 H12 H23 IH]; intros Hwf Hu; [now split|].
  apply IH.
  - now apply (step_best _ _ H12).
  - exact (step_unshared _ _ H12 Hwf Hu).
Qed.

(** X19.  The best model is a copy, never the model itself, and a snapshot
    once taken is not changed by anything that follows: later calls of either
    method, failing ones included, and later changes of the model leave its
    mode flag and parameters as they were copied. *)
Theorem snapshot_isolated (w w' : world) :
  wf w -> unshared w -> steps w w' ->
  unshared w'
  /\ (forall l, best_model (self w) = Some l -> modules w' l = modules w l).
Proof.
  intros Hwf Hu Hs. split.
  - now apply (steps_unshared _ _ Hs).
  - intros l Hl. apply (snapshot_stable _ _ _ Hs Hwf).
    + destruct Hwf as (_ & Hb & _). now apply Hb.
    + intros E. apply Hu. now rewrite Hl, E.
Qed.

(** The best loss is the sentinel while there is no best model, and below
    the sentinel once there is one. *)
Definition tracked (w : world) : Prop :=
  match best_model (self w) with
  | None => best_model_loss (self w) = 1e9
  | Some _ => (best_model_loss (self w) <? 1e9) = true
  end.

(** What is left of [tracked] once a copy may have raised. *)
Definition bounded (w : world) : Prop :=
  match best_model (self w) with
  | None => (best_model_loss (self w) <=? 1e9) = true
  | Some _ => (best_model_loss (self w) <? 1e9) = true
  end.

Lemma tracked_below w : tracked w -> (best_model_loss (self w) <=? 1e9) = true.
Proof.
  unfold tracked. destruct (best_model (self w)).
  - apply FloatFacts.ltb_leb.
  - now intros ->.
Qed.

Lemma bounded_below w : bounded w -> (best_model_loss (self w) <=? 1e9) = true.
Proof.
  unfold bounded. destruct (best_model (self w)); [|trivial].
  apply FloatFacts.ltb_leb.
Qed.

Lemma post_training_tracked w :
  tracked w -> tracked (snd (evaluate_post_training w)).
Proof.
  intros Ht.
  destruct (evaluate_post_training w) as [[res|e] w'] eqn:E; simpl.
  - apply evaluate_post_training_ok in E as (_ & _ & _ & Hs & _).
    unfold tracked. rewrite Hs. simpl.
    destruct (res_loss res <? best_model_loss (self w)) eqn:Hlt;
      [|exact Ht].
    exact (FloatFacts.ltb_leb_trans _ _ _ Hlt (tracked_below _ Ht)).
  - apply evaluate_post_training_err in E as (Hs & _).
    unfold tracked. now rewrite Hs.
Qed.

Lemma post_training_bounded w :
  bounded w -> bounded (snd (evaluate_post_training w)).
Proof.
  intros Ht.
  destruct (evaluate_post_training w) as [[res|e] w'] eqn:E; simpl.
  - apply evaluate_post_training_ok in E as (_ & _ & _ & Hs & _).
    unfold bounded. rewrite Hs. simpl.
    destruct (res_loss res <? best_model_loss (self w)) eqn:Hlt;
      [|exact Ht].
    exact (FloatFacts.ltb_leb_trans _ _ _ Hlt (bounded_below _ Ht)).
  - apply evaluate_post_training_err in E as (Hs & _).
    unfold bounded. now rewrite Hs.
Qed.

Lemma step_bounded w w' : step w w' -> bounded w -> bounded w'.
Proof.
  intros Hstep Ht. destruct Hstep.
  - destruct (evaluate_keeps_best eval_tdp w) as (_ & Hb & Hl & _).
    unfold bounded. now rewrite Hb, Hl.
  - now apply post_training_bounded.
  - destruct (copy_raises_inv tag w)
      as [(res & w0 & _ & Hlt & ->) | (_ & ->)];
      [|now apply post_training_bounded].
    pose proof (FloatFacts.ltb_leb_trans _ _ _ Hlt (bounded_below _ Ht))
      as Hlt'.
    unfold bounded; simpl.
    destruct (best_model (self w));
      [exact Hlt' | exact (FloatFacts.ltb_leb _ _ Hlt')].
  - exact Ht.
Qed.

Lemma steps_bounded w w' : steps w w' -> bounded w -> bounded w'.
Proof.
  induction 1 as [w | w1 w2 w3 H12 H23 IH]; intros Ht; [assumption|].
  apply IH. exact (step_bounded _ _ H12 Ht).
Qed.

(** The runs in which no copy raised. *)
Inductive steps_copying : world -> world -> Prop :=
| copying_nil w : steps_copying w w
| copying_evaluate eval_tdp w w' :
    steps_copying (snd (evaluate eval_tdp w)) w' -> steps_copying w w'
| copying_evaluate_post_training w w' :
    steps_copying (snd (evaluate_post_training w)) w' -> steps_copying w w'
| copying_model_changed m flags w w' :
    steps_copying
      (mkWorld (self w)
               (update (modules w) (reward_net (trainer (self w))) m)
               (update (submodules w) (reward_net (trainer (self w))) flags)
               (next w) (logged w)) w' ->
    steps_copying w w'.

Lemma steps_copying_steps w w' : steps_copying w w' -> steps w w'.
Proof.
  induction 1; [apply steps_nil | | |];
    (eapply steps_cons; [|eassumption]); constructor.
Qed.

Lemma steps_copying_tracked w w' :
  steps_copying w w' -> tracked w -> tracked w'.
Proof.
  induction 1 as [w | b w w' _ IH | w w' _ IH | m flags w w' _ IH];
    intros Ht; [assumption | | |]; apply IH.
  - destruct (evaluate_keeps_best b w) as (_ & Hb & Hl & _).
    unfold tracked. now rewrite Hb, Hl.
  - now apply post_training_tracked.
  - exact Ht.
Qed.

(** X20.  Whatever has been done with an evaluator since it was created, a
    best model comes with a best loss strictly below the sentinel [1e9],
    and a best loss that is still the sentinel comes without a best
    model.  As long as no copy has raised, the evaluator has no best model
    exactly when its best loss is the sentinel.  A copy that raises breaks
    this: the evaluator is left without a best model and with the mean,
    which is below the sentinel, as its best loss. *)
Theorem best_model_absent_iff_sentinel
    (t : RewardNetTrainer) (w w' : world) :
  self w = __init__ t ->
  (steps w w' ->
   (forall l, best_model (self w') = Some l ->
      (best_model_loss (self w') <? 1e9) = true)
   /\ (best_model_loss (self w') = 1e9 -> best_model (self w') = None))
  /\ (steps_copying w w' ->
      (best_model (self w') = None <-> best_model_loss (self w') = 1e9)
      /\ (forall tag res w1,
            best_model (self w') = None ->
            evaluate_post_training w' = (Ok res, w1) ->
            (res_loss res <? 1e9) = true ->
            let w2 := snd (evaluate_post_training_copy_raises tag w') in
            best_model (self w2) = None
            /\ best_model_loss (self w2) = res_loss res)).
Proof.
  intros Hinit. split; intros Hs.
  - assert (bounded w') as Hb.
    { apply (steps_bounded _ _ Hs). unfold bounded. now rewrite Hinit. }
    unfold bounded in Hb. destruct (best_model (self w')) as [l|].
    + split; [now intros l' _|].
      intros E. rewrite E in Hb. discriminate.
    + split; [discriminate | reflexivity].
  - assert (tracked w') as Ht.
    { apply (steps_copying_tracked _ _ Hs). unfold tracked.
      now rewrite Hinit. }
    unfold tracked in Ht. split.
    + destruct (best_model (self w')) as [l|].
      * split; [discriminate|]. intros E. rewrite E in Ht. discriminate.
      * now split.
    + intros tag res w1 Hnone E Hlt w2. subst w2.
      rewrite Hnone in Ht.
      destruct (copy_raises_inv tag w')
        as [(res' & w0 & E' & _ & ->) | (Hno & _)].
      * rewrite E in E'. inversion E'; subst. simpl. now split.
      * specialize (Hno _ _ E). rewrite Ht in Hno. congruence.
Qed.

(** X21.  The best loss is at most the mean loss of every epoch evaluated so
    far, NaN means aside: right after the call that returned the mean, and
    after anything that follows. *)
Theorem best_loss_bounds_means (w w1 w2 : world) (res : eval_res) :
  wf w ->
  evaluate_post_training w = (Ok res, w1) ->
  is_nan (res_loss res) = false ->
  steps w1 w2 ->
  (best_model_loss (self w2) <=? res_loss res) = true.
Proof.
  intros Hwf E Hnum Hs.
  assert (step w w1) as Hstep.
  { replace w1 with (snd (evaluate_post_training w)) by now rewrite E.
    apply step_evaluate_post_training. }
  destruct (step_best _ _ Hstep Hwf) as [Hwf1 _].
  destruct (steps_best _ _ Hs Hwf1) as [_ Hle].
  apply (FloatFacts.leb_trans _ _ _ Hle).
  apply evaluate_post_training_ok in E as (_ & _ & _ & -> & _). simpl.
  destruct (res_loss res <? best_model_loss (self w)) eqn:Hlt.
  - now apply FloatFacts.leb_refl.
  - apply FloatFacts.not_ltb_leb; try assumption. apply Hwf.
Qed.

(** *** A whole epoch *)

(** The evaluation loop of an epoch: [evaluate] on each batch in turn,
    stopping at the first call that raises. *)
Fixpoint evaluate_all (batches : list Batch) (w : world)
    : result unit * world :=
  match batches with
  | [] => (Ok tt, w)
  | eval_tdp :: batches =>
      match evaluate eval_tdp w with
      | (Ok _, w) => evaluate_all batches w
      | (Err e, w) => (Err e, w)
      end
  end.

Lemma set_modes_idem mode w w1 :
  trainer (self w1) = trainer (self w) ->
  (forall l, submodules w1 l = set_modes mode w l) ->
  forall l, set_modes mode w1 l = set_modes mode w l.
Proof.
  intros Ht Hsub l. unfold set_modes. rewrite Ht.
  set (net := reward_net (trainer (self w))).
  destruct (Nat.eq_dec l net) as [->|Hne].
  - rewrite !update_same, Hsub. unfold set_modes. fold net.
    rewrite update_same. apply map_const_idem.
  - rewrite !update_other by assumption. rewrite Hsub.
    unfold set_modes. fold net. now rewrite update_other by assumption.
Qed.

Lemma evaluate_all_ok batches : forall w w',
  evaluate_all batches w = (Ok tt, w') ->
  exists ls rs ps,
    Forall2 (fun b r => signal b = Some r) batches rs
    /\ Forall2 (fun b p => forward (eval_model w) b = Returns p) batches ps
    /\ List.length ls = List.length batches
    /\ self w' =
         mkEvaluator (trainer (self w)) (loss (self w) ++ ls)
           (rewards (self w) ++ rs) (pred_rewards (self w) ++ ps)
           (best_model (self w)) (best_model_loss (self w))
    /\ (forall l, modules w' l = modules w l)
    /\ next w' = next w /\ logged w' = logged w
    /\ (forall l,
         submodules w' l
         = match batches with
           | [] => submodules w l
           | _ :: _ =>
               set_modes
                 (training (modules w (reward_net (trainer (self w))))) w l
           end).
Proof.
  induction batches as [|b bs IH]; intros w w' H; simpl in H.
  - inversion H; subst. exists [], [], []. rewrite !app_nil_r.
    repeat split; try constructor. now destruct (self w').
  - destruct (evaluate b w) as [[[]|e] w1] eqn:E; [|discriminate].
    apply evaluate_ok in E
      as (r & p & l & Hr & Hp & _ & Hs1 & Hm1 & Hn1 & Hl1 & Hsub1).
    apply IH in H
      as (ls & rs & ps & Hrs & Hps & Hlen & Hs & Hm & Hn & Hl & Hsub).
    assert (trainer (self w1) = trainer (self w)) as Ht
      by now rewrite Hs1.
    assert (eval_model w1 = eval_model w) as Hmodel.
    { unfold eval_model. rewrite Ht. now rewrite Hm1. }
    rewrite Hmodel in Hps.
    exists (l :: ls), (r :: rs), (p :: ps).
    rewrite Hs, Hs1. simpl. rewrite <- !app_assoc. simpl.
    repeat split; try (constructor; assumption); try congruence.
    intros l0. rewrite Hsub. destruct bs; [apply Hsub1|].
    rewrite Ht, Hm1. now apply set_modes_idem.
Qed.

(** X22.  An epoch in which every [evaluate] call returns, started with empty
    accumulators and closed by [evaluate_post_training]: the rewards and the
    predicted rewards returned are the concatenations, in the order of the
    calls, of the batches' rewards and of the model's predictions in
    evaluation mode on them. *)
Theorem epoch_result
    (batches : list Batch) (w w1 w2 : world) (res : eval_res) :
  loss (self w) = [] -> rewards (self w) = [] ->
  pred_rewards (self w) = [] ->
  evaluate_all batches w = (Ok tt, w1) ->
  evaluate_post_training w1 = (Ok res, w2) ->
  exists rs ps,
    Forall2 (fun b r => signal b = Some r) batches rs
    /\ Forall2 (fun b p => forward (eval_model w) b = Returns p) batches ps
    /\ res_rewards res = List.concat rs
    /\ res_pred_rewards res = List.concat ps
    /\ batches <> [].
Proof.
  intros Hl Hr Hp Hall Hpost.
  apply evaluate_all_ok in Hall
    as (ls & rs & ps & Hrs & Hps & Hlen & Hs & _).
  rewrite Hl, Hr, Hp in Hs. simpl in Hs.
  apply evaluate_post_training_ok in Hpost as (_ & Hcr & Hcp & _).
  rewrite Hs in Hcr, Hcp. simpl in Hcr, Hcp.
  exists rs, ps. unfold torch_cat in Hcr, Hcp.
  destruct rs as [|r rs]; [discriminate|].
  destruct ps as [|p ps]; [discriminate|].
  inversion Hcr; inversion Hcp. repeat split; try assumption.
  intros E. rewrite E in Hrs. inversion Hrs.
Qed.

(** X23.  What an epoch in which every call returns leaves of the model.
    The model object has the mode flag and the parameters it had, but the
    modules it contains have all been put in the model's own mode: line 47
    restores the one flag that line 32 read.  So the model is as its owner
    left it exactly when every module it contains was in the model's
    mode. *)
Theorem epoch_resets_contained_modes
    (batches : list Batch) (w w1 w2 : world) (res : eval_res) :
  evaluate_all batches w = (Ok tt, w1) ->
  evaluate_post_training w1 = (Ok res, w2) ->
  batches <> [] ->
  let net := reward_net (trainer (self w)) in
  let mode := training (modules w net) in
  modules w2 net = modules w net
  /\ submodules w2 net = map (fun _ => mode) (submodules w net)
  /\ (submodules w2 net = submodules w net
      <-> Forall (fun flag => flag = mode) (submodules w net)).
Proof.
  intros Hall Hpost Hne net mode.
  apply evaluate_all_ok in Hall
    as (ls & rs & ps & _ & _ & _ & Hs & Hm & _ & _ & Hsub).
  apply evaluate_post_training_ok in Hpost
    as (_ & _ & _ & _ & Hm2 & _ & Hsub2 & _).
  assert (trainer (self w1) = trainer (self w)) as Ht by now rewrite Hs.
  rewrite Ht in Hm2, Hsub2. fold net in Hm2, Hsub2.
  assert (modules w2 net = modules w net) as E1.
  { rewrite Hm2, <- Hm.
    destruct (res_loss res <? best_model_loss (self w1)); [|reflexivity].
    apply update_self. }
  assert (submodules w2 net = map (fun _ => mode) (submodules w net)) as E2.
  { rewrite Hsub2.
    assert (submodules w1 net = map (fun _ => mode) (submodules w net))
      as E.
    { rewrite Hsub. destruct batches; [congruence|].
      unfold set_modes. fold net. now rewrite update_same. }
    rewrite <- E.
    destruct (res_loss res <? best_model_loss (self w1)); [|reflexivity].
    apply update_self. }
  split; [exact E1|]. split; [exact E2|].
  rewrite E2. apply map_const_id.
Qed.

End Evaluate.

(** *** A concrete evaluator

    A model that predicts the batch's [state], under the mean absolute
    error, on which the statements above are exercised. *)

Module Fixture.

Definition forward (m : Module_) (eval_tdp : Batch) : outcome Tensor :=
  match eval_tdp with
  | PreprocessedRankingInput _ state => Returns state
  | OtherInput _ state => Returns state
  end.

Definition l1_loss (pred target : Tensor) : outcome Tensor :=
  let errors := map (fun pt => abs (fst pt - snd pt)) (combine pred target) in
  Returns [fold_left add errors 0.0 / float_of_nat (List.length errors)].

Definition trainer : RewardNetTrainer := mkTrainer 0%nat "l1" l1_loss.

(** A new evaluator, its model in training mode.  The model contains two
    modules, one in training mode and one frozen in evaluation mode. *)
Definition new : world :=
  mkWorld (__init__ trainer) (fun _ => mkModule true [1.0])
          (fun _ => [true; false]) 1%nat [].

Definition without_reward : Batch := PreprocessedRankingInput None [0.4].

Definition epoch1 : world :=
  snd (evaluate forward (OtherInput (Some [0.0]) [0.6])
         (snd (evaluate forward (PreprocessedRankingInput (Some [0.0]) [0.4])
                 new))).

Definition epoch2 : world :=
  snd (evaluate forward (OtherInput (Some [0.0]) [0.9])
         (snd (evaluate_post_training epoch1))).

Example epoch1_accumulated :
  self epoch1
  = mkEvaluator trainer [[0.4]; [0.6]] [[0.0]; [0.0]] [[0.4]; [0.6]] None 1e9
  /\ training (modules epoch1 0%nat) = true.
Proof. split; reflexivity. Qed.

Example epoch1_result :
  fst (evaluate_post_training epoch1) = Ok (mkRes 0.5 [0.0; 0.0] [0.4; 0.6])
  /\ self (snd (evaluate_post_training epoch1))
     = mkEvaluator trainer [] [] [] (Some 1%nat) 0.5.
Proof. split; reflexivity. Qed.

Example epoch2_result :
  fst (evaluate_post_training epoch2) = Ok (mkRes 0.9 [0.0] [0.9])
  /\ self (snd (evaluate_post_training epoch2))
     = mkEvaluator trainer [] [] [] (Some 1%nat) 0.5.
Proof. split; reflexivity. Qed.

(** C3 fails on the code: on a batch without reward the assertion of line
    39 raises after [reward_net.eval()], and the model, which was in
    training mode, is left in evaluation mode. *)
Lemma evaluate_mode_flag_counterexample :
  training (modules new 0%nat) = true
  /\ fst (evaluate forward without_reward new) = Err (AssertionError [])
  /\ training (modules (snd (evaluate forward without_reward new)) 0%nat) = false.
Proof. repeat split; reflexivity. Qed.

(** C5 as stated fails: with nothing accumulated the mean is computed, it
    is NaN and it is logged; the exception comes from [torch.cat]. *)
Lemma evaluate_post_training_empty_counterexample :
  np_mean (loss (self new)) = Ok nan
  /\ evaluate_post_training new
     = (Err torch_cat_empty,
        mkWorld (self new) (modules new) (submodules new) (next new)
          [[Lit "Evaluation "; FmtRepr "l1"; Lit "="; FmtFloat nan]%string]).
Proof. split; reflexivity. Qed.

Lemma evaluate_reward_signal_witness :
  (without_reward = PreprocessedRankingInput None [0.4]
   \/ without_reward = OtherInput None [0.4])
  /\ (fst (evaluate forward without_reward new) = Err (AssertionError [])
      <-> @None Tensor = None).
Proof.
  split; [left; reflexivity|].
  apply (evaluate_reward_signal forward new without_reward None [0.4]).
  left; reflexivity.
Defined.

Lemma new_to_end_of_epoch2 :
  steps forward new (snd (evaluate_post_training epoch2)).
Proof.
  unfold epoch2, epoch1.
  eapply steps_cons;
    [exact (step_evaluate forward
              (PreprocessedRankingInput (Some [0.0]) [0.4]) new)|].
  eapply steps_cons;
    [exact (step_evaluate forward (OtherInput (Some [0.0]) [0.6]) _)|].
  eapply steps_cons; [exact (step_evaluate_post_training forward _)|].
  eapply steps_cons;
    [exact (step_evaluate forward (OtherInput (Some [0.0]) [0.9]) _)|].
  eapply steps_cons; [exact (step_evaluate_post_training forward _)|].
  apply steps_nil.
Qed.

Lemma epoch1_wf : wf epoch1.
Proof.
  repeat split; [exact Nat.lt_0_1 | discriminate].
Qed.

Lemma best_model_tracking_witness :
  self new = __init__ trainer
  /\ (best_model_loss (self (snd (evaluate_post_training epoch2))) <=? 1e9)
     = true
  /\ (best_model (self (snd (evaluate_post_training epoch1)))
      <> best_model (self epoch1)
      <-> (0.5 <? best_model_loss (self epoch1)) = true)
  /\ loss (self epoch1) = [[0.4]; [0.6]]
  /\ best_model_loss (self epoch1) = 1e9
  /\ (exists res w',
        evaluate_post_training epoch1 = (Ok res, w')
        /\ res_loss res = 0.5
        /\ best_model (self w') = Some (next epoch1)
        /\ best_model_loss (self w') = 0.5)
  /\ (exists res w',
        evaluate_post_training epoch2 = (Ok res, w')
        /\ res_loss res = 0.9
        /\ best_model (self w') = best_model (self epoch2)
        /\ best_model_loss (self w') = 0.5).
Proof.
  split; [reflexivity|].
  destruct (best_model_tracking forward) as (_ & H0 & H3 & H1 & H2).
  split.
  { exact (H0 trainer new _ eq_refl (Nat.lt_0_1) new_to_end_of_epoch2). }
  split.
  { exact (proj1 (H3 epoch1 (mkRes 0.5 [0.0; 0.0] [0.4; 0.6])
                    (snd (evaluate_post_training epoch1)) epoch1_wf
                    eq_refl)). }
  split; [reflexivity|]. split; [reflexivity|].
  split.
  - apply H1; [reflexivity | discriminate | discriminate | reflexivity].
  - apply H2; [reflexivity | discriminate | discriminate | reflexivity].
Defined.

Lemma evaluate_post_training_drains_witness :
  evaluate_post_training epoch1
  = (Ok (mkRes 0.5 [0.0; 0.0] [0.4; 0.6]),
     snd (evaluate_post_training epoch1))
  /\ loss (self (snd (evaluate_post_training epoch1))) = []
  /\ rewards (self (snd (evaluate_post_training epoch1))) = []
  /\ pred_rewards (self (snd (evaluate_post_training epoch1))) = [].
Proof.
  split; [reflexivity|].
  apply (proj1 evaluate_post_training_drains epoch1
           (mkRes 0.5 [0.0; 0.0] [0.4; 0.6])).
  reflexivity.
Defined.

(** **** Further runs *)

Definition batch1 : Batch := PreprocessedRankingInput (Some [0.0]) [0.4].
Definition batch2 : Batch := OtherInput (Some [0.0]) [0.6].
Definition batch3 : Batch := OtherInput (Some [0.0]) [0.9].

(** The evaluator after its first epoch has been closed. *)
Definition closed1 : world := snd (evaluate_post_training epoch1).

Lemma closed1_wf : wf closed1.
Proof.
  repeat split; [exact (Nat.lt_0_succ 1)|].
  intros l E. inversion E. exact (Nat.lt_succ_diag_r 1).
Qed.

Lemma closed1_to_end_of_epoch2 :
  steps forward closed1 (snd (evaluate_post_training epoch2)).
Proof.
  unfold epoch2. fold closed1.
  eapply steps_cons; [exact (step_evaluate forward batch3 closed1)|].
  eapply steps_cons; [exact (step_evaluate_post_training forward _)|].
  apply steps_nil.
Qed.

Lemma evaluate_failure_records_nothing_witness :
  evaluate forward without_reward new
  = (Err (AssertionError []), train 0%nat false new)
  /\ self (train 0%nat false new) = self new
  /\ logged (train 0%nat false new) = logged new
  /\ modules new 0%nat = mkModule true [1.0]
  /\ modules (train 0%nat false new) 0%nat = mkModule false [1.0]
  /\ submodules new 0%nat = [true; false]
  /\ submodules (train 0%nat false new) 0%nat = [false; false].
Proof.
  split; [reflexivity|].
  destruct (evaluate_failure_records_nothing forward without_reward new
              (train 0%nat false new) (AssertionError []) eq_refl)
    as (H1 & H2 & _ & H4 & H5 & _).
  split; [exact H1|]. split; [exact H2|]. split; [reflexivity|].
  split; [exact H4|]. split; [reflexivity|]. exact H5.
Defined.

Lemma accumulators_stay_aligned_witness :
  aligned epoch1
  /\ np_mean (loss (self epoch1)) = Ok 0.5
  /\ (is_ok (fst (evaluate_post_training epoch1)) = true
      <-> loss (self epoch1) <> [])
  /\ (is_ok (fst (evaluate_post_training_copy_raises "cannot pickle"
                    epoch1)) = true
      <-> loss (self epoch1) <> []
          /\ (0.5 <? best_model_loss (self epoch1)) = false).
Proof.
  assert (aligned epoch1) as Ha by (split; reflexivity).
  split; [exact Ha|]. split; [reflexivity|].
  destruct (accumulators_stay_aligned forward) as (_ & _ & H).
  destruct (H epoch1 0.5 Ha eq_refl) as [H1 H2].
  split; [exact H1 | exact (H2 "cannot pickle"%string)].
Defined.

(** The first epoch closed by a call in which the copy raises. *)
Definition uncopied1 : world :=
  snd (evaluate_post_training_copy_raises "cannot pickle" epoch1).

Lemma evaluate_post_training_failure_witness :
  evaluate_post_training_copy_raises "cannot pickle" epoch1
  = (Err (Raised "cannot pickle"), uncopied1)
  /\ self epoch1
     = mkEvaluator trainer [[0.4]; [0.6]] [[0.0]; [0.0]] [[0.4]; [0.6]]
         None 1e9
  /\ self uncopied1 = mkEvaluator trainer [] [] [] None 0.5
  /\ modules uncopied1 = modules epoch1
  /\ next uncopied1 = next epoch1.
Proof.
  split; [reflexivity|]. split; [reflexivity|].
  destruct (proj2 (evaluate_post_training_failure epoch1 uncopied1
                     (Raised "cannot pickle"))
                  "cannot pickle"%string eq_refl)
    as [E | (res & w0 & E & _ & _ & Hw)].
  - discriminate E.
  - injection E as <- <-. rewrite Hw. repeat split.
Defined.



Lemma snapshot_isolated_witness :
  best_model (self closed1) = Some 1%nat
  /\ modules (snd (evaluate_post_training epoch2)) 1%nat
     = modules closed1 1%nat.
Proof.
  split; [reflexivity|].
  assert (unshared closed1) as Hu by (intros E; discriminate).
  destruct (snapshot_isolated forward closed1
              (snd (evaluate_post_training epoch2)) closed1_wf Hu
              closed1_to_end_of_epoch2)
    as (_ & H).
  exact (H 1%nat eq_refl).
Defined.

Lemma new_to_epoch1 : steps_copying forward new epoch1.
Proof.
  unfold epoch1.
  eapply copying_evaluate; eapply copying_evaluate; apply copying_nil.
Qed.

Lemma best_model_absent_iff_sentinel_witness :
  self new = __init__ trainer
  /\ (best_model_loss (self (snd (evaluate_post_training epoch2))) = 1e9 ->
      best_model (self (snd (evaluate_post_training epoch2))) = None)
  /\ (best_model (self epoch1) = None
      <-> best_model_loss (self epoch1) = 1e9)
  /\ best_model (self uncopied1) = None
  /\ best_model_loss (self uncopied1) = 0.5.
Proof.
  split; [reflexivity|].
  destruct (best_model_absent_iff_sentinel forward trainer new
              (snd (evaluate_post_training epoch2)) eq_refl)
    as [H1 _].
  destruct (best_model_absent_iff_sentinel forward trainer new epoch1
              eq_refl)
    as [_ H2].
  split; [exact (proj2 (H1 new_to_end_of_epoch2))|].
  destruct (H2 new_to_epoch1) as [H3 H4].
  split; [exact H3|].
  exact (H4 "cannot pickle"%string (mkRes 0.5 [0.0; 0.0] [0.4; 0.6])
            (snd (evaluate_post_training epoch1)) eq_refl eq_refl eq_refl).
Defined.

Lemma best_loss_bounds_means_witness :
  evaluate_post_training epoch1
  = (Ok (mkRes 0.5 [0.0; 0.0] [0.4; 0.6]), closed1)
  /\ is_nan 0.5 = false
  /\ (best_model_loss (self (snd (evaluate_post_training epoch2))) <=? 0.5)
     = true.
Proof.
  split; [reflexivity|]. split; [reflexivity|].
  exact (best_loss_bounds_means forward epoch1 closed1
           (snd (evaluate_post_training epoch2))
           (mkRes 0.5 [0.0; 0.0] [0.4; 0.6]) epoch1_wf eq_refl eq_refl
           closed1_to_end_of_epoch2).
Defined.

Lemma first_epoch : evaluate_all forward [batch1; batch2] new = (Ok tt, epoch1).
Proof. reflexivity. Qed.

Lemma epoch_result_witness :
  evaluate_all forward [batch1; batch2] new = (Ok tt, epoch1)
  /\ evaluate_post_training epoch1
     = (Ok (mkRes 0.5 [0.0; 0.0] [0.4; 0.6]), closed1)
  /\ exists rs ps,
       Forall2 (fun b r => signal b = Some r) [batch1; batch2] rs
       /\ Forall2 (fun b p => forward (eval_model new) b = Returns p)
            [batch1; batch2] ps
       /\ [0.0; 0.0] = List.concat rs
       /\ [0.4; 0.6] = List.concat ps.
Proof.
  split; [exact first_epoch|]. split; [reflexivity|].
  destruct (epoch_result forward [batch1; batch2] new epoch1 closed1
              (mkRes 0.5 [0.0; 0.0] [0.4; 0.6]) eq_refl eq_refl eq_refl
              first_epoch eq_refl)
    as (rs & ps & H1 & H2 & H3 & H4 & _).
  now exists rs, ps.
Defined.

Lemma epoch_resets_contained_modes_witness :
  evaluate_all forward [batch1; batch2] new = (Ok tt, epoch1)
  /\ [batch1; batch2] <> []
  /\ modules closed1 0%nat = modules new 0%nat
  /\ submodules new 0%nat = [true; false]
  /\ submodules closed1 0%nat = [true; true].
Proof.
  split; [exact first_epoch|]. split; [discriminate|].
  destruct (epoch_resets_contained_modes forward [batch1; batch2] new
              epoch1 closed1 (mkRes 0.5 [0.0; 0.0] [0.4; 0.6]) first_epoch
              eq_refl ltac:(discriminate))
    as (H1 & H2 & _).
  split; [exact H1|]. split; [reflexivity | exact H2].
Defined.

End Fixture.

End Evaluator.
